(** * Message handling: logger generation and message dispatch

    A shallow embedding of [external_scripts/message_handling.py]: the
    [LoggerGenerator] class, which configures a named logger writing to a
    file, and the [MessageHandlingObject] class, whose [_print], [_warn] and
    [_raise] methods route a message to the console, the warning channel and
    the log, under an optional lock.

    Python objects with mutable state that the module shares (loggers,
    handlers, locks) live in an explicit store, the [world]; methods are
    computations in a state-and-exception monad over that store.  A
    [MessageHandlingObject] itself is passed by value: the only field the
    module ever rebinds is [_logger], in [set_logger], which returns the
    updated object. *)

From Stdlib Require Import ZArith Ascii String.
From stdpp Require Import base strings gmap list.

Local Open Scope Z_scope.
Local Open Scope string_scope.

(** ** Python values *)

(** References into the store. *)
Abbreviation loc := nat (only parsing).

(** Exception objects: the class and the message they were built with. *)
Record exc := { exc_class : string; exc_msg : string }.

Definition ValueError (msg : string) : exc :=
  {| exc_class := "ValueError"; exc_msg := msg |}.
Definition OSError (msg : string) : exc :=
  {| exc_class := "OSError"; exc_msg := msg |}.
Definition RuntimeError (msg : string) : exc :=
  {| exc_class := "RuntimeError"; exc_msg := msg |}.

(** What is handed to a logging call: [_print] and [_warn] pass the string,
    [_raise] passes the exception object. *)
Inductive message :=
| MsgStr (s : string)
| MsgExc (e : exc).

(** Truth value of an [Optional[str]]: [None] and the empty string are
    false. *)
Definition truthy (o : option string) : bool :=
  match o with
  | None => false
  | Some s => negb (String.eqb s "")
  end.

(** The builtin [any] on a list of [Optional[str]]. *)
Definition any (l : list (option string)) : bool := existsb truthy l.

(** [str.lower].  A character is a code point below 256 (Latin-1), where
    lowering is per character: A-Z and the accented capitals 192-222,
    the multiplication sign 215 apart, move up by 32. *)
Definition lower_char (c : ascii) : ascii :=
  let n := N_of_ascii c in
  if ((65 <=? n) && (n <=? 90) ||
      (192 <=? n) && (n <=? 222) && negb (n =? 215))%N
  then ascii_of_N (n + 32) else c.

Fixpoint lower (s : string) : string :=
  match s with
  | EmptyString => EmptyString
  | String c r => String (lower_char c) (lower r)
  end.

(** ** The [logging] backend, as far as the module drives it *)

Module logging.
Definition NOTSET : Z := 0.
Definition DEBUG : Z := 10.
Definition INFO : Z := 20.
Definition WARNING : Z := 30.
Definition ERROR : Z := 40.
Definition CRITICAL : Z := 50.

Record Logger := {
  name : string;
  level : Z;
  handlers : list loc
}.

Record FileHandler := {
  baseFilename : string;
  h_level : Z;
  formatter : option string
}.
End logging.

(** What the module does to the outside, in order.  [LogCall] is the call
    of a logger's [info], [warning] or [exception] method; what the backend
    then writes (thresholds, propagation, formatting) is downstream of this
    module. *)
Inductive event :=
| Print (s : string) (kwargs : list (string * string))
| Warn (s : string)
| LogCall (logger : loc) (levelno : Z) (msg : message) (exc_info : bool)
| Acquire (lock : loc)
| Release (lock : loc).

Record world := {
  loggerDict : gmap string loc;          (* logging's registry of names *)
  loggers : list logging.Logger;         (* Logger objects *)
  file_handlers : list logging.FileHandler;
  openable : string -> bool;             (* can this path be opened? *)
  valid_format : string -> bool;         (* does Formatter accept it? *)
  held : gset loc;                       (* locks currently acquired *)
  next_lock : loc;
  trace : list event
}.

Definition set_loggerDict (d : gmap string loc) (w : world) : world :=
  {| loggerDict := d; loggers := loggers w;
     file_handlers := file_handlers w; openable := openable w;
     valid_format := valid_format w; held := held w;
     next_lock := next_lock w; trace := trace w |}.
Definition set_loggers (l : list logging.Logger) (w : world) : world :=
  {| loggerDict := loggerDict w; loggers := l;
     file_handlers := file_handlers w; openable := openable w;
     valid_format := valid_format w; held := held w;
     next_lock := next_lock w; trace := trace w |}.
Definition set_file_handlers (l : list logging.FileHandler) (w : world) : world :=
  {| loggerDict := loggerDict w; loggers := loggers w; file_handlers := l;
     openable := openable w; valid_format := valid_format w; held := held w;
     next_lock := next_lock w; trace := trace w |}.
Definition set_held (s : gset loc) (w : world) : world :=
  {| loggerDict := loggerDict w; loggers := loggers w;
     file_handlers := file_handlers w; openable := openable w;
     valid_format := valid_format w; held := s; next_lock := next_lock w;
     trace := trace w |}.
Definition set_next_lock (n : loc) (w : world) : world :=
  {| loggerDict := loggerDict w; loggers := loggers w;
     file_handlers := file_handlers w; openable := openable w;
     valid_format := valid_format w; held := held w; next_lock := n;
     trace := trace w |}.
Definition emit (e : event) (w : world) : world :=
  {| loggerDict := loggerDict w; loggers := loggers w;
     file_handlers := file_handlers w; openable := openable w;
     valid_format := valid_format w; held := held w;
     next_lock := next_lock w; trace := trace w ++ [e] |}.

(** ** Computations: state, exceptions, and waiting for a lock *)

Inductive result (A : Type) : Type :=
| Returned (a : A) (w : world)
| Raised (e : exc) (w : world)
| Blocked (w : world).
Arguments Returned {A} a w.
Arguments Raised {A} e w.
Arguments Blocked {A} w.

Definition M (A : Type) : Type := world -> result A.

#[global] Instance M_ret : MRet M := fun A a w => Returned a w.
#[global] Instance M_bind : MBind M := fun A B f m w =>
  match m w with
  | Returned a w' => f a w'
  | Raised e w' => Raised e w'
  | Blocked w' => Blocked w'
  end.

(** The [raise] statement. *)
Definition raise {A : Type} (e : exc) : M A := fun w => Raised e w.

Definition modify (f : world -> world) : M unit :=
  fun w => Returned tt (f w).

(** The world a computation leaves behind, however it ends. *)
Definition final {A : Type} (r : result A) : world :=
  match r with
  | Returned _ w => w
  | Raised _ w => w
  | Blocked w => w
  end.

(** ** Backend calls *)

(** [logging.getLogger(name)]: one Logger object per name, created on first
    use with no level and no handlers. *)
Definition getLogger (nm : string) : M loc := fun w =>
  match loggerDict w !! nm with
  | Some l => Returned l w
  | None =>
      let l := length (loggers w) in
      let fresh := {| logging.name := nm; logging.level := logging.NOTSET;
                      logging.handlers := [] |} in
      Returned l (set_loggerDict (<[nm := l]> (loggerDict w))
                    (set_loggers (loggers w ++ [fresh]) w))
  end.

(** [logging.FileHandler(path)]: opens the file at once, so it raises when
    the path cannot be opened; otherwise a new handler object. *)
Definition new_FileHandler (path : string) : M loc := fun w =>
  if openable w path then
    let fresh := {| logging.baseFilename := path;
                    logging.h_level := logging.NOTSET;
                    logging.formatter := None |} in
    Returned (length (file_handlers w))
      (set_file_handlers (file_handlers w ++ [fresh]) w)
  else Raised (OSError path) w.

Definition Logger_setLevel (l : loc) (lv : Z) : M unit :=
  modify (fun w => set_loggers
    (alter (fun lg => {| logging.name := logging.name lg;
                         logging.level := lv;
                         logging.handlers := logging.handlers lg |})
           l (loggers w)) w).

Definition Handler_setLevel (h : loc) (lv : Z) : M unit :=
  modify (fun w => set_file_handlers
    (alter (fun fh => {| logging.baseFilename := logging.baseFilename fh;
                         logging.h_level := lv;
                         logging.formatter := logging.formatter fh |})
           h (file_handlers w)) w).

(** [logging.Formatter(fmt)] checks the format string and raises a
    [ValueError] on one it does not accept. *)
Definition Formatter (fmt : string) : M string := fun w =>
  if valid_format w fmt then Returned fmt w
  else Raised (ValueError "Invalid format") w.

Definition Handler_setFormatter (h : loc) (fmt : string) : M unit :=
  modify (fun w => set_file_handlers
    (alter (fun fh => {| logging.baseFilename := logging.baseFilename fh;
                         logging.h_level := logging.h_level fh;
                         logging.formatter := Some fmt |})
           h (file_handlers w)) w).

(** [Logger.addHandler(hdlr)] appends the handler unless this very object
    is in the list already. *)
Definition Logger_addHandler (l h : loc) : M unit :=
  modify (fun w => set_loggers
    (alter (fun lg =>
              {| logging.name := logging.name lg;
                 logging.level := logging.level lg;
                 logging.handlers :=
                   if bool_decide (h ∈ logging.handlers lg)
                   then logging.handlers lg
                   else logging.handlers lg ++ [h] |})
           l (loggers w)) w).

Definition Logger_info (l : loc) (s : string) : M unit :=
  modify (emit (LogCall l logging.INFO (MsgStr s) false)).
Definition Logger_warning (l : loc) (s : string) : M unit :=
  modify (emit (LogCall l logging.WARNING (MsgStr s) false)).
(** [Logger.exception(e)] is [error(e, exc_info=True)]. *)
Definition Logger_exception (l : loc) (e : exc) : M unit :=
  modify (emit (LogCall l logging.ERROR (MsgExc e) true)).

(** The builtin [print] and [warnings.warn]. *)
Definition print (s : string) (kwargs : list (string * string)) : M unit :=
  modify (emit (Print s kwargs)).
Definition warn (s : string) : M unit :=
  modify (emit (Warn s)).

(** [threading.Lock()] and its two methods.  [acquire] on a lock that is
    held waits; [release] on a lock that is not held raises. *)
Definition Lock : M loc := fun w =>
  Returned (next_lock w) (set_next_lock (S (next_lock w)) w).

Definition acquire (l : loc) : M unit := fun w =>
  if bool_decide (l ∈ held w) then Blocked w
  else Returned tt (emit (Acquire l) (set_held ({[l]} ∪ held w) w)).

Definition release (l : loc) : M unit := fun w =>
  if bool_decide (l ∈ held w)
  then Returned tt (emit (Release l) (set_held (held w ∖ {[l]}) w))
  else Raised (RuntimeError "release unlocked lock") w.

(** ** class LoggerGenerator *)

Module LoggerGenerator.

Record t := {
  _logger : loc;
  _handler : loc;
  default_format : string
}.

Definition _create_logger (logger_name : option string) : M loc :=
  let logger_name :=
    if negb (truthy logger_name) then "messagehandler"
    else default "" logger_name in
  getLogger logger_name.

Definition _create_file_handler (log_filepath : string) : M loc :=
  new_FileHandler log_filepath.

Definition __init__ (log_filepath : string) (logger_name : option string)
  : M t :=
  lg ← _create_logger logger_name;
  h ← _create_file_handler log_filepath;
  mret {| _logger := lg; _handler := h;
          default_format :=
            "%(asctime)s:%(levelname)s:%(name)s:%(message)s" |}.

Definition _parse_logger_level (level_str : option string) : M Z :=
  if negb (truthy level_str) then mret logging.INFO
  else
    let level_str := lower (default "" level_str) in
    if String.eqb level_str "debug" then mret logging.DEBUG
    else if String.eqb level_str "info" then mret logging.INFO
    else if String.eqb level_str "warning" then mret logging.WARNING
    else if String.eqb level_str "error" then mret logging.ERROR
    else if String.eqb level_str "critical" || String.eqb level_str "fatal"
         then mret logging.CRITICAL
    else raise (ValueError "Invalid option for logger level.").

Definition _set_logger_level (self : t) (level_str : option string)
  : M unit :=
  level ← _parse_logger_level level_str;
  Logger_setLevel (_logger self) level;;
  Handler_setLevel (_handler self) level.

Definition _apply_formatting (self : t) (logger_format : option string)
  : M unit :=
  let logger_format :=
    if truthy logger_format then default "" logger_format
    else default_format self in
  formatter ← Formatter logger_format;
  Handler_setFormatter (_handler self) formatter.

Definition generate (self : t) (logger_level logger_format : option string)
  : M loc :=
  _set_logger_level self logger_level;;
  _apply_formatting self logger_format;;
  Logger_addHandler (_logger self) (_handler self);;
  mret (_logger self).

End LoggerGenerator.

(** ** class MessageHandlingObject *)

(** An [if] statement without [else]. *)
Definition when (b : bool) (m : M unit) : M unit :=
  if b then m else mret tt.

(** [x is not None]. *)
Definition is_not_None {A : Type} (x : option A) : bool :=
  match x with
  | Some _ => true
  | None => false
  end.

Module MessageHandlingObject.

Record t := {
  _verbose : bool;
  _suppress_warnings : bool;
  _logger : option loc;
  _use_threaded_log_locks : bool;
  _log_lock : loc
}.

(** The decorator: [wrapper] around [func]. *)
Definition _locked_log_process {A : Type} (func : t -> M A) (self : t)
  : M A :=
  let locked := _use_threaded_log_locks self in
  when locked (acquire (_log_lock self));;
  output ← func self;
  when locked (release (_log_lock self));;
  mret output.

Definition _init_logger
    (log_filepath logger_name logger_level logger_format : option string)
    (shared_logger : option loc) : M (option loc) :=
  if is_not_None shared_logger &&
     any [log_filepath; logger_name; logger_level; logger_format]
  then raise (ValueError
    ("Must choose between providing an existing " ++
     "logger or specify itialization arguments. " ++
     "Cannot do both."))
  else
    match shared_logger with
    | None =>
        match log_filepath with
        | None => mret None
        | Some log_filepath =>
            logger_generator ← LoggerGenerator.__init__ log_filepath
                                 logger_name;
            lg ← LoggerGenerator.generate logger_generator logger_level
                   logger_format;
            mret (Some lg)
        end
    | Some shared_logger => mret (Some shared_logger)
    end.

Definition __init__ (verbose suppress_warnings : bool)
    (log_filepath logger_name logger_level logger_format : option string)
    (shared_logger : option loc) : M t :=
  lg ← _init_logger log_filepath logger_name logger_level logger_format
         shared_logger;
  lk ← Lock;
  mret {| _verbose := verbose; _suppress_warnings := suppress_warnings;
          _logger := lg; _use_threaded_log_locks := false;
          _log_lock := lk |}.

Definition _print (self : t) (s : string) (kwargs : list (string * string))
  : M unit :=
  _locked_log_process (fun self =>
    when (_verbose self) (print s kwargs);;
    match _logger self with
    | Some lg => Logger_info lg s
    | None => mret tt
    end) self.

Definition _warn (self : t) (s : string) : M unit :=
  _locked_log_process (fun self =>
    when (negb (_suppress_warnings self)) (warn s);;
    match _logger self with
    | Some lg => Logger_warning lg s
    | None => mret tt
    end) self.

Definition _raise (self : t) (error : exc) : M unit :=
  _locked_log_process (fun self =>
    match _logger self with
    | Some lg => Logger_exception lg error
    | None => mret tt
    end;;
    raise error) self.

(** [set_logger] rebinds [self._logger]; the updated object is returned. *)
Definition set_logger (self : t)
    (log_filepath logger_name logger_level logger_format : option string)
    (shared_logger : option loc) : M t :=
  lg ← _init_logger log_filepath logger_name logger_level logger_format
         shared_logger;
  mret {| _verbose := _verbose self;
          _suppress_warnings := _suppress_warnings self;
          _logger := lg;
          _use_threaded_log_locks := _use_threaded_log_locks self;
          _log_lock := _log_lock self |}.

End MessageHandlingObject.

(** ** Worlds and objects to run the code on *)

Definition w0 : world :=
  {| loggerDict := ∅; loggers := []; file_handlers := [];
     openable := fun _ => true; valid_format := fun _ => true;
     held := ∅; next_lock := 0%nat; trace := [] |}.

(** The two objects of the module's [main]. *)
Definition main_objects : M (MessageHandlingObject.t * MessageHandlingObject.t) :=
  first ← MessageHandlingObject.__init__ false false (Some "test.log")
            (Some "testing") None None None;
  handler ← MessageHandlingObject.__init__ true false None None None None
              (MessageHandlingObject._logger first);
  mret (first, handler).

Definition main : M unit :=
  '(first, handler) ← main_objects;
  MessageHandlingObject._print handler "Info text" [];;
  MessageHandlingObject._warn handler "Warning text";;
  MessageHandlingObject._raise handler (ValueError "An error").

(** An object with the given switches, logger and locking flag, and lock
    number 0. *)
Definition object_with (verbose suppress_warnings : bool)
    (logger : option loc) (threaded : bool) : MessageHandlingObject.t :=
  {| MessageHandlingObject._verbose := verbose;
     MessageHandlingObject._suppress_warnings := suppress_warnings;
     MessageHandlingObject._logger := logger;
     MessageHandlingObject._use_threaded_log_locks := threaded;
     MessageHandlingObject._log_lock := 0%nat |}.

(** The generator of [main]'s first object, and the world once it is
    constructed. *)
Definition g_testing : LoggerGenerator.t :=
  {| LoggerGenerator._logger := 0%nat; LoggerGenerator._handler := 0%nat;
     LoggerGenerator.default_format :=
       "%(asctime)s:%(levelname)s:%(name)s:%(message)s" |}.

Definition w_testing : world :=
  final (LoggerGenerator.__init__ "test.log" (Some "testing") w0).

(** The world after that generator's first [generate] call. *)
Definition w_generated : world :=
  final (LoggerGenerator.generate g_testing None None w_testing).

(** The world after [main]'s first object is constructed. *)
Definition w_first : world :=
  final (MessageHandlingObject.__init__ false false (Some "test.log")
           (Some "testing") None None None w0).

(** ** Vocabulary of the properties *)

(** Appending a run of events to the trace. *)
Definition emit_all (evs : list event) (w : world) : world :=
  {| loggerDict := loggerDict w; loggers := loggers w;
     file_handlers := file_handlers w; openable := openable w;
     valid_format := valid_format w; held := held w;
     next_lock := next_lock w; trace := trace w ++ evs |}.

(** The error of the conflict check in [_init_logger]. *)
Definition conflict_error : exc :=
  ValueError ("Must choose between providing an existing logger or " ++
              "specify itialization arguments. Cannot do both.").

(** The error of [_parse_logger_level]. *)
Definition invalid_level_error : exc :=
  ValueError "Invalid option for logger level.".

(** An argument that carries a non-empty string. *)
Definition nonempty (o : option string) : Prop :=
  exists s, o = Some s /\ s <> "".

(** An argument that is missing or carries the empty string. *)
Definition absent_or_empty (o : option string) : Prop :=
  o = None \/ o = Some "".

(** The level names and the thresholds they stand for. *)
Definition level_names : list (string * Z) :=
  [("debug", logging.DEBUG); ("info", logging.INFO);
   ("warning", logging.WARNING); ("error", logging.ERROR);
   ("critical", logging.CRITICAL); ("fatal", logging.CRITICAL)].

(** Threshold of a logger and of a handler in a world. *)
Definition logger_level (w : world) (l : loc) : option Z :=
  logging.level <$> loggers w !! l.
Definition handler_level (w : world) (h : loc) : option Z :=
  logging.h_level <$> file_handlers w !! h.

(** Handlers attached to a logger; none if the logger does not exist
    yet. *)
Definition logger_handlers (w : world) (l : loc) : list loc :=
  from_option logging.handlers [] (loggers w !! l).

(** The format string [_apply_formatting] hands to [Formatter]. *)
Definition chosen_format (self : LoggerGenerator.t)
    (logger_format : option string) : string :=
  if truthy logger_format then default "" logger_format
  else LoggerGenerator.default_format self.

(** The format string in use when the generator carries the class's
    default format. *)
Definition format_in_use (logger_format : option string) : string :=
  if truthy logger_format then default "" logger_format
  else "%(asctime)s:%(levelname)s:%(name)s:%(message)s".

(** The logger name in use. *)
Definition name_in_use (logger_name : option string) : string :=
  if truthy logger_name then default "" logger_name else "messagehandler".

(** A level argument that [_parse_logger_level] accepts. *)
Definition recognised_level (lv : option string) : Prop :=
  truthy lv = false \/
  exists s nm z, lv = Some s /\ (nm, z) ∈ level_names /\ lower s = nm.

(** Every reference in the store points at an object of the store. *)
Definition wf_world (w : world) : Prop :=
  (forall n l, loggerDict w !! n = Some l -> (l < length (loggers w))%nat) /\
  (forall l lg h, loggers w !! l = Some lg -> h ∈ logging.handlers lg ->
     (h < length (file_handlers w))%nat).

(** The call gets past the lock: the object does not lock, or its lock is
    free. *)
Definition lock_obtainable (self : MessageHandlingObject.t) (w : world)
  : Prop :=
  MessageHandlingObject._use_threaded_log_locks self = false \/
  MessageHandlingObject._log_lock self ∉ held w.

(** Events of a method body wrapped by the decorator when the body
    returns. *)
Definition locking (self : MessageHandlingObject.t) (body : list event)
  : list event :=
  if MessageHandlingObject._use_threaded_log_locks self
  then Acquire (MessageHandlingObject._log_lock self) :: body ++
       [Release (MessageHandlingObject._log_lock self)]
  else body.

(** Console, warning and log events, as opposed to lock events. *)
Definition is_output (e : event) : bool :=
  match e with
  | Print _ _ | Warn _ | LogCall _ _ _ _ => true
  | Acquire _ | Release _ => false
  end.

(** The observable output among a run of events. *)
Definition outputs (evs : list event) : list event :=
  List.filter is_output evs.

(** The loggers that the logging calls among a run of events go to. *)
Definition log_targets (evs : list event) : list loc :=
  omap (fun e => match e with
                 | LogCall lg _ _ _ => Some lg
                 | _ => None
                 end) evs.

(** A run of events that happens under lock [l]: it opens with the
    acquisition, then only outputs follow, up to an optional release at the
    very end. *)
Fixpoint outputs_then_release (l : loc) (evs : list event) : bool :=
  match evs with
  | [] => true
  | [Release l'] => Nat.eqb l l'
  | e :: rest => is_output e && outputs_then_release l rest
  end.

Definition under_lock (l : loc) (evs : list event) : bool :=
  match evs with
  | Acquire l' :: rest => Nat.eqb l l' && outputs_then_release l rest
  | _ => false
  end.

(** The presence reading of the conflict rule: any of the four arguments
    given, whatever its value. *)
Definition conflict_on_presence : Prop :=
  forall fp nm lv fmt l w,
    is_Some fp \/ is_Some nm \/ is_Some lv \/ is_Some fmt ->
    MessageHandlingObject._init_logger fp nm lv fmt (Some l) w
    = Raised conflict_error w.

(** Every [generate] call attaches a handler that was not attached
    before. *)
Definition generate_attaches_new_handler : Prop :=
  forall self lv fmt w lg w',
    LoggerGenerator.generate self lv fmt w = Returned lg w' ->
    exists h, (h ∉ logger_handlers w lg) /\
              logger_handlers w' lg = (logger_handlers w lg ++ [h])%list.

(** An empty world in which no file can be opened. *)
Definition w_readonly : world :=
  {| loggerDict := ∅; loggers := []; file_handlers := [];
     openable := fun _ => false; valid_format := fun _ => true;
     held := ∅; next_lock := 0%nat; trace := [] |}.

(** An empty world whose [Formatter] accepts the default format only. *)
Definition w_strict : world :=
  {| loggerDict := ∅; loggers := []; file_handlers := [];
     openable := fun _ => true;
     valid_format :=
       String.eqb "%(asctime)s:%(levelname)s:%(name)s:%(message)s";
     held := ∅; next_lock := 0%nat; trace := [] |}.

(** The strict world once the generator of [main]'s first object is
    constructed in it. *)
Definition w_strict_testing : world :=
  final (LoggerGenerator.__init__ "test.log" (Some "testing") w_strict).

(** The empty world with lock 0 held. *)
Definition w_locked : world := set_held {[0%nat]} w0.

(** The object after [self._logger = lg]: every other attribute as it
    was. *)
Definition rebind_logger (self : MessageHandlingObject.t)
    (lg : option loc) : MessageHandlingObject.t :=
  {| MessageHandlingObject._verbose := MessageHandlingObject._verbose self;
     MessageHandlingObject._suppress_warnings :=
       MessageHandlingObject._suppress_warnings self;
     MessageHandlingObject._logger := lg;
     MessageHandlingObject._use_threaded_log_locks :=
       MessageHandlingObject._use_threaded_log_locks self;
     MessageHandlingObject._log_lock :=
       MessageHandlingObject._log_lock self |}.

(** The object a constructor call returns: the switches as given, the
    resolved logger, thread-safe logging off and a new lock. *)
Definition constructed (verbose suppress_warnings : bool)
    (lg : option loc) (lock : loc) : MessageHandlingObject.t :=
  {| MessageHandlingObject._verbose := verbose;
     MessageHandlingObject._suppress_warnings := suppress_warnings;
     MessageHandlingObject._logger := lg;
     MessageHandlingObject._use_threaded_log_locks := false;
     MessageHandlingObject._log_lock := lock |}.

(** No two names of the registry stand for one Logger object. *)
Definition registry_injective (w : world) : Prop :=
  forall n1 n2 l,
    loggerDict w !! n1 = Some l -> loggerDict w !! n2 = Some l -> n1 = n2.

(** The handler object a [FileHandler] call creates. *)
Definition fresh_handler (path : string) : logging.FileHandler :=
  {| logging.baseFilename := path; logging.h_level := logging.NOTSET;
     logging.formatter := None |}.

(** The Logger object [getLogger] creates for a new name. *)
Definition fresh_logger (nm : string) : logging.Logger :=
  {| logging.name := nm; logging.level := logging.NOTSET;
     logging.handlers := [] |}.

(** The world once [getLogger] has been asked for a name: as before when
    the name is registered, with one more Logger object otherwise. *)
Definition with_logger (nm : string) (w : world) : world :=
  match loggerDict w !! nm with
  | Some _ => w
  | None =>
      set_loggerDict (<[nm := length (loggers w)]> (loggerDict w))
        (set_loggers (loggers w ++ [fresh_logger nm]) w)
  end.

(** The logger [getLogger] answers with. *)
Definition logger_for (nm : string) (w : world) : loc :=
  default (length (loggers w)) (loggerDict w !! nm).

(** The format string a handler carries. *)
Definition handler_formatter (w : world) (h : loc) : option (option string) :=
  logging.formatter <$> file_handlers w !! h.

(** * Properties *)

(** ** Running computations *)

(** Unfolds the monad's operations and evaluates. *)
Ltac run :=
  unfold mbind, M_bind, mret, M_ret, when, raise, modify in *; simpl in *.

Lemma world_eq (w w' : world) :
  loggerDict w = loggerDict w' -> loggers w = loggers w' ->
  file_handlers w = file_handlers w' -> openable w = openable w' ->
  valid_format w = valid_format w' -> held w = held w' ->
  next_lock w = next_lock w' -> trace w = trace w' -> w = w'.
Proof.
  destruct w, w'; simpl; intros; subst; reflexivity.
Qed.

Lemma emit_all_nil (w : world) : emit_all [] w = w.
Proof. apply world_eq; simpl; auto using app_nil_r. Qed.

Lemma acquire_free (l : loc) (w : world) :
  l ∉ held w ->
  acquire l w = Returned tt (emit (Acquire l) (set_held ({[l]} ∪ held w) w)).
Proof. intros H. unfold acquire. rewrite bool_decide_eq_false_2; auto. Qed.

Lemma acquire_held (l : loc) (w : world) :
  l ∈ held w -> acquire l w = Blocked w.
Proof. intros H. unfold acquire. rewrite bool_decide_eq_true_2; auto. Qed.

Lemma release_held (l : loc) (w : world) :
  l ∈ held w ->
  release l w = Returned tt (emit (Release l) (set_held (held w ∖ {[l]}) w)).
Proof. intros H. unfold release. rewrite bool_decide_eq_true_2; auto. Qed.

Section Decorator.
Import MessageHandlingObject.
Context {A : Type} (func : t -> M A) (self : t).

(** Without the flag the wrapper is the wrapped function. *)
Lemma wrapper_unlocked (w : world) :
  _use_threaded_log_locks self = false ->
  _locked_log_process func self w = func self w.
Proof.
  intros Hf. unfold _locked_log_process. rewrite Hf. run.
  destruct (func self w); reflexivity.
Qed.

(** With the flag and the lock taken by someone, the wrapper waits. *)
Lemma wrapper_blocked (w : world) :
  _use_threaded_log_locks self = true -> _log_lock self ∈ held w ->
  _locked_log_process func self w = Blocked w.
Proof.
  intros Hf Hl. unfold _locked_log_process. rewrite Hf. run.
  rewrite acquire_held; auto.
Qed.

(** With the flag and a free lock, a body that returns is followed by the
    release. *)
Lemma wrapper_returned (w w2 : world) (a : A) :
  _use_threaded_log_locks self = true -> _log_lock self ∉ held w ->
  func self (emit (Acquire (_log_lock self))
               (set_held ({[_log_lock self]} ∪ held w) w)) = Returned a w2 ->
  _log_lock self ∈ held w2 ->
  _locked_log_process func self w
  = Returned a (emit (Release (_log_lock self))
                  (set_held (held w2 ∖ {[_log_lock self]}) w2)).
Proof.
  intros Hf Hl Hb Hh. unfold _locked_log_process. rewrite Hf. run.
  rewrite acquire_free by assumption. rewrite Hb.
  rewrite release_held by assumption. reflexivity.
Qed.

(** With the flag and a free lock, a body that raises leaves at once: the
    release is not reached. *)
Lemma wrapper_raised (w w2 : world) (e : exc) :
  _use_threaded_log_locks self = true -> _log_lock self ∉ held w ->
  func self (emit (Acquire (_log_lock self))
               (set_held ({[_log_lock self]} ∪ held w) w)) = Raised e w2 ->
  _locked_log_process func self w = Raised e w2.
Proof.
  intros Hf Hl Hb. unfold _locked_log_process. rewrite Hf. run.
  rewrite acquire_free by assumption. rewrite Hb. reflexivity.
Qed.

End Decorator.

(** ** Message dispatch *)

Section Dispatch.
Import MessageHandlingObject.

(** What a returning body leaves behind when run under the decorator:
    its events, bracketed by the lock events if the object locks. *)
Lemma wrapper_emits (self : t) (func : t -> M unit) (evs : list event)
    (w : world) :
  (forall w1, func self w1 = Returned tt (emit_all evs w1)) ->
  lock_obtainable self w ->
  _locked_log_process func self w
  = Returned tt (emit_all (locking self evs) w).
Proof.
  intros Hb Hl. unfold locking.
  destruct (_use_threaded_log_locks self) eqn:Hf.
  - destruct Hl as [Hl|Hl]; [congruence|].
    rewrite (wrapper_returned func self w _ tt Hf Hl (Hb _)).
    + f_equal. apply world_eq; simpl; auto.
      * set_solver.
      * rewrite <- !app_assoc. reflexivity.
    + simpl. set_solver.
  - rewrite wrapper_unlocked by assumption. rewrite Hb.
    reflexivity.
Qed.

Lemma print_body (self : t) (s : string) (kwargs : list (string * string))
    (w : world) :
  (when (_verbose self) (print s kwargs);;
   match _logger self with
   | Some lg => Logger_info lg s
   | None => mret tt
   end) w
  = Returned tt (emit_all
      ((if _verbose self then [Print s kwargs] else []) ++
       match _logger self with
       | Some lg => [LogCall lg logging.INFO (MsgStr s) false]
       | None => []
       end) w).
Proof.
  unfold print, Logger_info. run.
  destruct (_verbose self), (_logger self); simpl; f_equal;
    apply world_eq; simpl; auto using app_nil_r.
  rewrite <- app_assoc. reflexivity.
Qed.

Lemma warn_body (self : t) (s : string) (w : world) :
  (when (negb (_suppress_warnings self)) (warn s);;
   match _logger self with
   | Some lg => Logger_warning lg s
   | None => mret tt
   end) w
  = Returned tt (emit_all
      ((if _suppress_warnings self then [] else [Warn s]) ++
       match _logger self with
       | Some lg => [LogCall lg logging.WARNING (MsgStr s) false]
       | None => []
       end) w).
Proof.
  unfold warn, Logger_warning. run.
  destruct (_suppress_warnings self), (_logger self); simpl; f_equal;
    apply world_eq; simpl; auto using app_nil_r.
  rewrite <- app_assoc. reflexivity.
Qed.

Lemma raise_body (self : t) (error : exc) (w : world) :
  (match _logger self with
   | Some lg => Logger_exception lg error
   | None => mret tt
   end;; @raise unit error) w
  = Raised error (emit_all
      match _logger self with
      | Some lg => [LogCall lg logging.ERROR (MsgExc error) true]
      | None => []
      end w).
Proof.
  unfold Logger_exception. run. destruct (_logger self); simpl; f_equal;
    apply world_eq; simpl; auto using app_nil_r.
Qed.

(** [_raise] in full: the error comes out, the lock, if one was taken,
    stays taken. *)
Lemma raise_runs (self : t) (error : exc) (w : world) :
  lock_obtainable self w ->
  _raise self error w
  = Raised error
      (emit_all
         match _logger self with
         | Some lg => [LogCall lg logging.ERROR (MsgExc error) true]
         | None => []
         end
         (if _use_threaded_log_locks self
          then emit (Acquire (_log_lock self))
                 (set_held ({[_log_lock self]} ∪ held w) w)
          else w)).
Proof.
  intros Hl. unfold _raise.
  destruct (_use_threaded_log_locks self) eqn:Hf.
  - destruct Hl as [Hl|Hl]; [congruence|].
    erewrite wrapper_raised; [reflexivity|assumption..|].
    apply (raise_body self).
  - rewrite wrapper_unlocked by assumption. apply (raise_body self).
Qed.

(** [_print] and [_warn] in full. *)
Lemma print_runs (self : t) (s : string) (kwargs : list (string * string))
    (w : world) :
  lock_obtainable self w ->
  _print self s kwargs w
  = Returned tt (emit_all (locking self
      ((if _verbose self then [Print s kwargs] else []) ++
       match _logger self with
       | Some lg => [LogCall lg logging.INFO (MsgStr s) false]
       | None => []
       end)) w).
Proof.
  intros Hl. unfold _print. apply wrapper_emits; [|assumption].
  intros w1. apply print_body.
Qed.

Lemma warn_runs (self : t) (s : string) (w : world) :
  lock_obtainable self w ->
  _warn self s w
  = Returned tt (emit_all (locking self
      ((if _suppress_warnings self then [] else [Warn s]) ++
       match _logger self with
       | Some lg => [LogCall lg logging.WARNING (MsgStr s) false]
       | None => []
       end)) w).
Proof.
  intros Hl. unfold _warn. apply wrapper_emits; [|assumption].
  intros w1. apply warn_body.
Qed.

Lemma outputs_locking (self : t) (evs : list event) :
  forallb is_output evs = true -> outputs (locking self evs) = evs.
Proof.
  intros H. unfold outputs, locking.
  assert (Hid : List.filter is_output evs = evs).
  { induction evs as [|e evs IH]; simpl in *; [reflexivity|].
    apply andb_prop in H as [He Hr]. rewrite He, IH; auto. }
  destruct (_use_threaded_log_locks self); simpl; [|assumption].
  rewrite List.filter_app, Hid. simpl. apply app_nil_r.
Qed.

(** C5: [_print] returns, and its observable output is the console line
    exactly when [_verbose] is set, followed by the INFO log record exactly
    when a logger is present: a verbose object with a logger produces
    both, a quiet one with a logger only the log record, a quiet one
    without a logger nothing; neither part looks at the other's switch. *)
Theorem print_console_and_log (self : t) (s : string)
    (kwargs : list (string * string)) (w : world) :
  lock_obtainable self w ->
  exists w' evs,
    _print self s kwargs w = Returned tt w' /\
    trace w' = (trace w ++ evs)%list /\
    outputs evs =
      ((if _verbose self then [Print s kwargs] else []) ++
       match _logger self with
       | Some lg => [LogCall lg logging.INFO (MsgStr s) false]
       | None => []
       end)%list.
Proof.
  intros Hl. do 2 eexists. split; [apply print_runs; assumption|].
  split; [reflexivity|]. apply outputs_locking.
  destruct (_verbose self), (_logger self); reflexivity.
Qed.

(** C6: [_warn] returns, and its observable output is the process warning
    exactly when [_suppress_warnings] is off, followed by the WARNING log
    record exactly when a logger is present: suppression removes the
    warning and leaves the log record, and the warning does not depend on
    a logger. *)
Theorem warn_warning_and_log (self : t) (s : string) (w : world) :
  lock_obtainable self w ->
  exists w' evs,
    _warn self s w = Returned tt w' /\
    trace w' = (trace w ++ evs)%list /\
    outputs evs =
      ((if _suppress_warnings self then [] else [Warn s]) ++
       match _logger self with
       | Some lg => [LogCall lg logging.WARNING (MsgStr s) false]
       | None => []
       end)%list.
Proof.
  intros Hl. do 2 eexists. split; [apply warn_runs; assumption|].
  split; [reflexivity|]. apply outputs_locking.
  destruct (_suppress_warnings self), (_logger self); reflexivity.
Qed.

(** C3: [_raise] never returns normally and never raises anything but the
    error it was given; once past the lock it raises that very error, and
    the world in which the error reaches the caller already holds the
    ERROR record with exception information when a logger is present, and
    no log record when there is none. *)
Theorem raise_logs_then_propagates (self : t) (error : exc) (w : world) :
  (forall a w', _raise self error w <> Returned a w') /\
  (forall e w', _raise self error w = Raised e w' -> e = error) /\
  (lock_obtainable self w ->
   exists w', _raise self error w = Raised error w' /\
     trace w' =
       (trace w ++
        (if _use_threaded_log_locks self
         then [Acquire (_log_lock self)] else []) ++
        match _logger self with
        | Some lg => [LogCall lg logging.ERROR (MsgExc error) true]
        | None => []
        end)%list).
Proof.
  assert (Hcases : lock_obtainable self w \/
                   _raise self error w = Blocked w).
  { destruct (_use_threaded_log_locks self) eqn:Hf.
    - destruct (decide (_log_lock self ∈ held w)) as [Hin|Hout].
      + right. apply wrapper_blocked; assumption.
      + left. right. assumption.
    - left. left. assumption. }
  split; [|split].
  - intros a w' H. destruct Hcases as [Hl|Hb].
    + rewrite raise_runs in H by assumption. discriminate.
    + rewrite Hb in H. discriminate.
  - intros e w' H. destruct Hcases as [Hl|Hb].
    + rewrite raise_runs in H by assumption. congruence.
    + rewrite Hb in H. discriminate.
  - intros Hl. eexists. split; [apply raise_runs; assumption|].
    destruct (_use_threaded_log_locks self); simpl;
      rewrite <- ?app_assoc; reflexivity.
Qed.

End Dispatch.

Section Locking.
Import MessageHandlingObject.

Lemma under_lock_returned (l : loc) (a : list event) (b : list event) :
  forallb is_output a = true -> forallb is_output b = true ->
  (length a <= 1)%nat -> (length b <= 1)%nat ->
  under_lock l (Acquire l :: (a ++ b) ++ [Release l]) = true.
Proof.
  intros Ha Hb La Lb. simpl. rewrite Nat.eqb_refl. simpl.
  destruct a as [|x [|? ?]]; simpl in *; try lia;
    destruct b as [|y [|? ?]]; simpl in *; try lia;
    rewrite ?Nat.eqb_refl; try reflexivity;
    repeat match goal with
           | e : event |- _ => destruct e; simpl in *; try discriminate
           end; rewrite ?Nat.eqb_refl; reflexivity.
Qed.

(** C9: a freshly constructed object has the thread-safety flag off.  With
    the flag on and the lock free, each of [_print], [_warn] and [_raise]
    first acquires the object's lock and produces all its output while
    holding it; with the flag on and the lock taken, each waits and
    produces nothing. *)
Theorem thread_safe_flag_and_locking :
  (forall verbose suppress_warnings fp nm lv fmt sh w self w',
     __init__ verbose suppress_warnings fp nm lv fmt sh w
     = Returned self w' ->
     _use_threaded_log_locks self = false) /\
  (forall self w,
     _use_threaded_log_locks self = true -> _log_lock self ∉ held w ->
     (forall s kwargs, exists evs,
        trace (final (_print self s kwargs w)) = (trace w ++ evs)%list /\
        under_lock (_log_lock self) evs = true) /\
     (forall s, exists evs,
        trace (final (_warn self s w)) = (trace w ++ evs)%list /\
        under_lock (_log_lock self) evs = true) /\
     (forall error, exists evs,
        trace (final (_raise self error w)) = (trace w ++ evs)%list /\
        under_lock (_log_lock self) evs = true)) /\
  (forall self w,
     _use_threaded_log_locks self = true -> _log_lock self ∈ held w ->
     (forall s kwargs, _print self s kwargs w = Blocked w) /\
     (forall s, _warn self s w = Blocked w) /\
     (forall error, _raise self error w = Blocked w)).
Proof.
  split; [|split].
  - intros verbose suppress_warnings fp nm lv fmt sh w self w' H.
    unfold __init__, Lock in H. run.
    destruct (_init_logger fp nm lv fmt sh w); try discriminate.
    injection H as <- _. reflexivity.
  - intros self w Hf Hl.
    assert (Ho : lock_obtainable self w) by (right; assumption).
    split; [|split].
    + intros s kwargs. rewrite print_runs by assumption.
      unfold locking. rewrite Hf. eexists. split; [reflexivity|].
      apply under_lock_returned;
        destruct (_verbose self), (_logger self); simpl; auto.
    + intros s. rewrite warn_runs by assumption.
      unfold locking. rewrite Hf. eexists. split; [reflexivity|].
      apply under_lock_returned;
        destruct (_suppress_warnings self), (_logger self); simpl; auto.
    + intros error. rewrite raise_runs by assumption. rewrite Hf.
      simpl. eexists. split; [rewrite <- app_assoc; reflexivity|].
      simpl. rewrite Nat.eqb_refl.
      destruct (_logger self); reflexivity.
  - intros self w Hf Hl. split; [|split]; intros;
      apply wrapper_blocked; assumption.
Qed.

End Locking.

Section DispatchExamples.
Import MessageHandlingObject.

Lemma print_console_and_log_witness :
  (lock_obtainable (object_with true false (Some 0%nat) false) w0 /\
   exists w' evs,
     _print (object_with true false (Some 0%nat) false) "Info text" [] w0
     = Returned tt w' /\
     trace w' = (trace w0 ++ evs)%list /\
     outputs evs = [Print "Info text" [];
                    LogCall 0 logging.INFO (MsgStr "Info text") false]) /\
  (exists w' evs,
     _print (object_with false false (Some 0%nat) true) "Info text" [] w0
     = Returned tt w' /\
     trace w' = (trace w0 ++ evs)%list /\
     outputs evs = [LogCall 0 logging.INFO (MsgStr "Info text") false]) /\
  (exists w' evs,
     _print (object_with false false None false) "x" [] w0
     = Returned tt w' /\
     trace w' = (trace w0 ++ evs)%list /\
     outputs evs = []).
Proof.
  split; [split; [left; reflexivity|]|split].
  - apply (print_console_and_log (object_with true false (Some 0%nat) false)).
    left; reflexivity.
  - apply (print_console_and_log (object_with false false (Some 0%nat) true)).
    right. apply not_elem_of_empty.
  - apply (print_console_and_log (object_with false false None false)).
    left; reflexivity.
Defined.

Lemma warn_warning_and_log_witness :
  (lock_obtainable (object_with false true (Some 0%nat) false) w0 /\
   exists w' evs,
     _warn (object_with false true (Some 0%nat) false) "Warning text" w0
     = Returned tt w' /\
     trace w' = (trace w0 ++ evs)%list /\
     outputs evs =
       [LogCall 0 logging.WARNING (MsgStr "Warning text") false]) /\
  (exists w' evs,
     _warn (object_with false false None false) "y" w0 = Returned tt w' /\
     trace w' = (trace w0 ++ evs)%list /\
     outputs evs = [Warn "y"]).
Proof.
  split; [split; [left; reflexivity|]|].
  - apply (warn_warning_and_log (object_with false true (Some 0%nat) false)).
    left; reflexivity.
  - apply (warn_warning_and_log (object_with false false None false)).
    left; reflexivity.
Defined.

Lemma raise_logs_then_propagates_witness :
  lock_obtainable (object_with true false (Some 0%nat) false) w0 /\
  exists w',
    _raise (object_with true false (Some 0%nat) false)
      (ValueError "An error") w0
    = Raised (ValueError "An error") w' /\
    trace w' = [LogCall 0 logging.ERROR
                  (MsgExc (ValueError "An error")) true].
Proof.
  split; [left; reflexivity|].
  apply (proj2 (proj2 (raise_logs_then_propagates
                         (object_with true false (Some 0%nat) false)
                         (ValueError "An error") w0))).
  left; reflexivity.
Defined.

Lemma thread_safe_flag_and_locking_witness :
  (_use_threaded_log_locks (object_with false true None true) = true /\
   (_log_lock (object_with false true None true) ∉ held w0)) /\
  exists evs,
    trace (final (_warn (object_with false true None true) "y" w0))
    = (trace w0 ++ evs)%list /\
    under_lock 0 evs = true.
Proof.
  split; [split; [reflexivity|apply not_elem_of_empty]|].
  apply (proj1 (proj2 (proj1 (proj2 thread_safe_flag_and_locking)
                         (object_with false true None true) w0 eq_refl
                         (not_elem_of_empty _)))).
Defined.

(** C4: on an object with thread-safe logging on, [_raise] takes the lock
    and leaves with the error while the lock is still held: the trace has
    the acquisition and no release, and the next dispatch on the object
    waits for the lock for ever. *)
Theorem raise_leaves_lock_held :
  exists w1,
    _raise (object_with false false None true) (ValueError "An error") w0
    = Raised (ValueError "An error") w1 /\
    trace w1 = [Acquire 0] /\
    0%nat ∈ held w1 /\
    _print (object_with false false None true) "Info text" [] w1
    = Blocked w1.
Proof.
  eexists. split; [reflexivity|]. split; [reflexivity|].
  split; [simpl; set_solver|]. reflexivity.
Qed.

End DispatchExamples.

(** ** Choosing the logger *)

Section Sourcing.
Import MessageHandlingObject.

Lemma truthy_nonempty (o : option string) : nonempty o -> truthy o = true.
Proof.
  intros (s & -> & Hs). simpl. apply negb_true_iff, String.eqb_neq, Hs.
Qed.

Lemma truthy_absent_or_empty (o : option string) :
  absent_or_empty o -> truthy o = false.
Proof. intros [->| ->]; reflexivity. Qed.

Lemma any_nonempty (fp nm lv fmt : option string) :
  nonempty fp \/ nonempty nm \/ nonempty lv \/ nonempty fmt ->
  any [fp; nm; lv; fmt] = true.
Proof.
  unfold any. simpl.
  intros [H|[H|[H|H]]]; apply truthy_nonempty in H; rewrite H;
    rewrite ?orb_true_r; reflexivity.
Qed.

Lemma any_absent_or_empty (fp nm lv fmt : option string) :
  absent_or_empty fp -> absent_or_empty nm -> absent_or_empty lv ->
  absent_or_empty fmt -> any [fp; nm; lv; fmt] = false.
Proof.
  intros H1 H2 H3 H4. unfold any. simpl.
  rewrite !truthy_absent_or_empty by assumption. reflexivity.
Qed.

Lemma init_logger_conflict (fp nm lv fmt : option string) (l : loc)
    (w : world) :
  any [fp; nm; lv; fmt] = true ->
  _init_logger fp nm lv fmt (Some l) w = Raised conflict_error w.
Proof. intros H. unfold _init_logger. rewrite H. reflexivity. Qed.

Lemma init_logger_shared (fp nm lv fmt : option string) (l : loc)
    (w : world) :
  any [fp; nm; lv; fmt] = false ->
  _init_logger fp nm lv fmt (Some l) w = Returned (Some l) w.
Proof. intros H. unfold _init_logger. rewrite H. reflexivity. Qed.

(** C1, amended: a shared logger together with a non-empty value for any
    of the four creation arguments makes [_init_logger] raise the conflict
    [ValueError] and leave the world untouched, whichever of the four
    carries it; the constructor and [set_logger] both run this check, so
    both fail in the same way. *)
Theorem conflict_on_nonempty_argument (fp nm lv fmt : option string)
    (l : loc) (w : world) :
  nonempty fp \/ nonempty nm \/ nonempty lv \/ nonempty fmt ->
  _init_logger fp nm lv fmt (Some l) w = Raised conflict_error w /\
  (forall verbose suppress_warnings,
     __init__ verbose suppress_warnings fp nm lv fmt (Some l) w
     = Raised conflict_error w) /\
  (forall self,
     set_logger self fp nm lv fmt (Some l) w = Raised conflict_error w).
Proof.
  intros H. apply any_nonempty in H.
  split; [|split]; intros; unfold __init__, set_logger; run;
    rewrite init_logger_conflict by assumption; reflexivity.
Qed.

Lemma conflict_on_nonempty_argument_witness :
  (nonempty None \/ nonempty (Some "testing") \/ nonempty None \/
   nonempty None) /\
  _init_logger None (Some "testing") None None (Some 0%nat) w0
  = Raised conflict_error w0.
Proof.
  assert (H : nonempty None \/ nonempty (Some "testing") \/
              nonempty None \/ nonempty None).
  { right; left. exists "testing". split; [reflexivity|discriminate]. }
  split; [exact H|].
  exact (proj1 (conflict_on_nonempty_argument None (Some "testing") None
                  None 0%nat w0 H)).
Defined.

(** C1 as stated fails: with a shared logger and the log file path given
    as the empty string, nothing is raised and the shared logger is
    adopted, at construction and in [set_logger] alike. *)
Lemma conflict_on_presence_fails :
  is_Some (Some "") /\
  _init_logger (Some "") None None None (Some 0%nat) w0
  = Returned (Some 0%nat) w0 /\
  (exists self w,
     __init__ false false (Some "") None None None (Some 0%nat) w0
     = Returned self w) /\
  set_logger (object_with false false None false) (Some "") None None None
    (Some 0%nat) w0
  = Returned (object_with false false (Some 0%nat) false) w0 /\
  ~ conflict_on_presence.
Proof.
  split; [eexists; reflexivity|]. split; [reflexivity|].
  split; [do 2 eexists; reflexivity|]. split; [reflexivity|].
  intros H. specialize (H (Some "") None None None 0%nat w0).
  assert (Hp : is_Some (Some "") \/ is_Some (@None string) \/
               is_Some (@None string) \/ is_Some (@None string)).
  { left. eexists; reflexivity. }
  specialize (H Hp). discriminate H.
Qed.

(** C10: with a shared logger and each of the four creation arguments
    absent or the empty string, the conflict check passes (it looks at the
    truth value of the arguments): [_init_logger] returns the shared logger
    and touches nothing, the constructor builds an object holding it, and
    [set_logger] installs it. *)
Theorem shared_logger_with_empty_arguments (fp nm lv fmt : option string)
    (l : loc) (w : world) :
  absent_or_empty fp -> absent_or_empty nm -> absent_or_empty lv ->
  absent_or_empty fmt ->
  _init_logger fp nm lv fmt (Some l) w = Returned (Some l) w /\
  (forall verbose suppress_warnings, exists self w',
     __init__ verbose suppress_warnings fp nm lv fmt (Some l) w
     = Returned self w' /\ _logger self = Some l /\
     trace w' = trace w) /\
  (forall self, exists self',
     set_logger self fp nm lv fmt (Some l) w = Returned self' w /\
     _logger self' = Some l).
Proof.
  intros H1 H2 H3 H4.
  pose proof (any_absent_or_empty fp nm lv fmt H1 H2 H3 H4) as H.
  split; [|split]; intros; unfold __init__, set_logger, Lock; run;
    rewrite init_logger_shared by assumption; eauto.
Qed.

Lemma shared_logger_with_empty_arguments_witness :
  (absent_or_empty (Some "") /\ absent_or_empty None) /\
  exists self',
    set_logger (object_with true false None false) (Some "") None (Some "")
      None (Some 3%nat) w0
    = Returned self' w0 /\ _logger self' = Some 3%nat.
Proof.
  assert (He : absent_or_empty (Some "")) by (right; reflexivity).
  assert (Hn : absent_or_empty None) by (left; reflexivity).
  split; [split; assumption|].
  exact (proj2 (proj2 (shared_logger_with_empty_arguments (Some "") None
                         (Some "") None 3%nat w0 He Hn He Hn)) _).
Defined.

End Sourcing.

(** ** Generating a logger *)

Section Generate.
Import LoggerGenerator.

Lemma lower_nonempty (s nm : string) (z : Z) :
  (nm, z) ∈ level_names -> lower s = nm -> truthy (Some s) = true.
Proof.
  intros Hin Hl. destruct s; [|reflexivity].
  simpl in Hl. subst nm. unfold level_names in Hin.
  repeat (apply elem_of_cons in Hin as [Hin|Hin]; [discriminate|]).
  apply elem_of_nil in Hin. contradiction.
Qed.

Lemma parse_level_name (s nm : string) (z : Z) (w : world) :
  (nm, z) ∈ level_names -> lower s = nm ->
  _parse_logger_level (Some s) w = Returned z w.
Proof.
  intros Hin Hl. unfold _parse_logger_level.
  rewrite (lower_nonempty s nm z Hin Hl). simpl. rewrite Hl.
  unfold level_names in Hin.
  repeat (apply elem_of_cons in Hin as [Hin|Hin];
          [injection Hin as -> ->; reflexivity|]).
  apply elem_of_nil in Hin. contradiction.
Qed.

Lemma parse_level_absent (w : world) :
  _parse_logger_level None w = Returned logging.INFO w.
Proof. reflexivity. Qed.

Lemma parse_level_other (s : string) (w : world) :
  s <> "" ->
  (forall nm z, (nm, z) ∈ level_names -> lower s <> nm) ->
  _parse_logger_level (Some s) w = Raised invalid_level_error w.
Proof.
  intros Hs Hn. unfold _parse_logger_level. simpl.
  apply String.eqb_neq in Hs. rewrite Hs. simpl.
  assert (Hno : forall nm z, (nm, z) ∈ level_names ->
                             String.eqb (lower s) nm = false).
  { intros nm z Hin. apply String.eqb_neq. eauto. }
  unfold level_names in Hno.
  rewrite (Hno "debug" logging.DEBUG) by set_solver.
  rewrite (Hno "info" logging.INFO) by set_solver.
  rewrite (Hno "warning" logging.WARNING) by set_solver.
  rewrite (Hno "error" logging.ERROR) by set_solver.
  rewrite (Hno "critical" logging.CRITICAL) by set_solver.
  rewrite (Hno "fatal" logging.CRITICAL) by set_solver.
  reflexivity.
Qed.

(** A level that does not parse stops [generate] before it touches
    anything. *)
Lemma generate_invalid_level (self : t) (lv fmt : option string)
    (e : exc) (w : world) :
  _parse_logger_level lv w = Raised e w ->
  generate self lv fmt w = Raised e w.
Proof.
  intros H. unfold generate, _set_logger_level. run. rewrite H.
  reflexivity.
Qed.

(** With a level that parses, both thresholds are set, whether or not the
    format is then accepted. *)
Lemma generate_levels (self : t) (lv fmt : option string) (z : Z)
    (w : world) :
  _parse_logger_level lv w = Returned z w ->
  is_Some (loggers w !! _logger self) ->
  is_Some (file_handlers w !! _handler self) ->
  logger_level (final (generate self lv fmt w)) (_logger self) = Some z /\
  handler_level (final (generate self lv fmt w)) (_handler self) = Some z.
Proof.
  intros Hp [lg Hlg] [fh Hfh].
  unfold generate, _set_logger_level, _apply_formatting, Formatter,
    Logger_setLevel, Handler_setLevel, Handler_setFormatter,
    Logger_addHandler, logger_level, handler_level.
  run. rewrite Hp. simpl.
  destruct (valid_format w _); simpl;
    rewrite ?list_lookup_alter_eq, Hlg, ?Hfh; simpl; auto.
Qed.

(** With a level that parses and a format that is accepted, [generate]
    returns the generator's logger, with the generator's handler attached
    unless it was attached already. *)
Lemma generate_runs (self : t) (lv fmt : option string) (z : Z)
    (w : world) :
  _parse_logger_level lv w = Returned z w ->
  valid_format w (chosen_format self fmt) = true ->
  is_Some (loggers w !! _logger self) ->
  exists w', generate self lv fmt w = Returned (_logger self) w' /\
    logger_handlers w' (_logger self) =
      (if bool_decide (_handler self ∈ logger_handlers w (_logger self))
       then logger_handlers w (_logger self)
       else logger_handlers w (_logger self) ++ [_handler self])%list /\
    length (loggers w') = length (loggers w) /\
    length (file_handlers w') = length (file_handlers w) /\
    loggerDict w' = loggerDict w /\ trace w' = trace w /\
    (forall l, l <> _logger self -> loggers w' !! l = loggers w !! l) /\
    (forall h p, logging.baseFilename <$> file_handlers w !! h = Some p ->
                 logging.baseFilename <$> file_handlers w' !! h = Some p).
Proof.
  intros Hp Hv [lg Hlg].
  unfold generate, _set_logger_level, _apply_formatting, Formatter,
    Logger_setLevel, Handler_setLevel, Handler_setFormatter,
    Logger_addHandler.
  run. rewrite Hp. simpl. fold (chosen_format self fmt). rewrite Hv.
  eexists. split; [reflexivity|]. simpl.
  unfold logger_handlers. simpl.
  rewrite !length_alter, !list_lookup_alter_eq, Hlg. simpl.
  split; [|repeat split; auto].
  - destruct (bool_decide _); reflexivity.
  - intros l Hne. rewrite !list_lookup_alter_ne by auto. reflexivity.
  - intros h p Hh. destruct (decide (h = _handler self)) as [->|Hne].
    + rewrite !list_lookup_alter_eq.
      destruct (file_handlers w !! _handler self); simpl in *; auto.
    + rewrite !list_lookup_alter_ne by auto. assumption.
Qed.

Lemma generate_wf (self : t) (lv fmt : option string) (lg : loc)
    (w w' : world) :
  wf_world w -> (_handler self < length (file_handlers w))%nat ->
  generate self lv fmt w = Returned lg w' ->
  wf_world w' /\ openable w' = openable w /\
  valid_format w' = valid_format w.
Proof.
  intros [Hr Hh] Hlt.
  unfold generate, _set_logger_level, _apply_formatting, Formatter,
    Logger_setLevel, Handler_setLevel, Handler_setFormatter,
    Logger_addHandler.
  run. destruct (_parse_logger_level lv w) as [z w1|e w1|w1] eqn:Hp;
    try discriminate.
  assert (w1 = w) as ->.
  { unfold _parse_logger_level in Hp. run.
    repeat match type of Hp with
           | (if ?b then _ else _) _ = _ => destruct b
           end; congruence. }
  simpl. destruct (valid_format w _); [|discriminate].
  intros H. injection H as _ <-. simpl.
  split; [|split; reflexivity]. split; simpl.
  - intros n l Hn. rewrite !length_alter. eauto.
  - intros l lg0 h Hl Hin. rewrite !length_alter.
    destruct (decide (l = _logger self)) as [->|Hne].
    + rewrite !list_lookup_alter_eq in Hl.
      destruct (loggers w !! _logger self) as [lg1|] eqn:Hlg;
        [|discriminate].
      simpl in Hl. injection Hl as <-. simpl in Hin.
      destruct (bool_decide _); [eauto|].
      apply elem_of_app in Hin as [Hin|Hin]; [eauto|].
      apply list_elem_of_singleton in Hin. subst h. assumption.
    + rewrite !list_lookup_alter_ne in Hl by auto. eauto.
Qed.

Lemma recognised_level_parses (lv : option string) :
  recognised_level lv ->
  exists z, forall w, _parse_logger_level lv w = Returned z w.
Proof.
  intros [H|(s & nm & z & -> & Hin & Hl)].
  - exists logging.INFO. intros w. unfold _parse_logger_level.
    rewrite H. reflexivity.
  - exists z. intros w. eapply parse_level_name; eauto.
Qed.

(** The constructor: the registry's logger for the name in use, and a
    handler object that did not exist before. *)
Lemma init_runs (p : string) (nm : option string) (w : world) :
  wf_world w -> openable w p = true ->
  exists g w1,
    __init__ p nm w = Returned g w1 /\
    _handler g = length (file_handlers w) /\
    default_format g = "%(asctime)s:%(levelname)s:%(name)s:%(message)s" /\
    file_handlers w1 !! _handler g
    = Some {| logging.baseFilename := p;
              logging.h_level := logging.NOTSET;
              logging.formatter := None |} /\
    (forall h, h <> _handler g ->
               file_handlers w1 !! h = file_handlers w !! h) /\
    is_Some (loggers w1 !! _logger g) /\
    logger_handlers w1 (_logger g) = logger_handlers w (_logger g) /\
    (_handler g ∉ logger_handlers w (_logger g)) /\
    loggerDict w1 !! name_in_use nm = Some (_logger g) /\
    wf_world w1 /\ openable w1 = openable w /\
    valid_format w1 = valid_format w /\ trace w1 = trace w.
Proof.
  intros [Hr Hh] Ho.
  unfold __init__, _create_logger, _create_file_handler, getLogger,
    new_FileHandler.
  run.
  assert (Hn : (if negb (truthy nm) then "messagehandler"
                else default "" nm) = name_in_use nm)
    by (unfold name_in_use; destruct (truthy nm); reflexivity).
  rewrite !Hn. clear Hn.
  destruct (loggerDict w !! name_in_use nm) as [l|] eqn:Hreg; simpl;
    rewrite Ho; do 2 eexists; (split; [reflexivity|]); simpl.
  - pose proof (Hr _ _ Hreg) as Hlt.
    apply lookup_lt_is_Some_2 in Hlt as Hsome.
    split; [reflexivity|]. split; [reflexivity|].
    split; [apply list_lookup_middle; reflexivity|].
    split.
    { intros h Hne. destruct (decide (h < length (file_handlers w))%nat).
      - apply lookup_app_l; assumption.
      - rewrite !lookup_ge_None_2; auto; rewrite ?length_app; simpl; lia. }
    split; [assumption|]. split; [reflexivity|].
    split.
    { unfold logger_handlers. destruct Hsome as [lg Hlg]. rewrite Hlg.
      simpl. intros Hin. specialize (Hh _ _ _ Hlg Hin). lia. }
    split; [assumption|].
    split; [|auto].
    split; simpl; [assumption|].
    intros l0 lg h Hl Hin. rewrite length_app. simpl.
    specialize (Hh _ _ _ Hl Hin). lia.
  - split; [reflexivity|]. split; [reflexivity|].
    split; [apply list_lookup_middle; reflexivity|].
    split.
    { intros h Hne. destruct (decide (h < length (file_handlers w))%nat).
      - apply lookup_app_l; assumption.
      - rewrite !lookup_ge_None_2; auto; rewrite ?length_app; simpl; lia. }
    split; [rewrite list_lookup_middle by reflexivity; eauto|].
    unfold logger_handlers. simpl.
    rewrite list_lookup_middle by reflexivity.
    rewrite (lookup_ge_None_2 (loggers w)) by lia. simpl.
    split; [reflexivity|]. split; [apply not_elem_of_nil|].
    split; [apply lookup_insert_eq|].
    split; [|auto].
    split; simpl.
    + intros n l Hn. rewrite length_app. simpl.
      destruct (decide (name_in_use nm = n)) as [Heq|Hne]; [subst n|].
      * rewrite lookup_insert_eq in Hn. injection Hn as <-. lia.
      * rewrite lookup_insert_ne in Hn by assumption.
        specialize (Hr _ _ Hn). lia.
    + intros l lg h Hl Hin. rewrite length_app. simpl.
      apply lookup_app_Some in Hl as [Hl|[_ Hl]].
      * specialize (Hh _ _ _ Hl Hin). lia.
      * destruct (l - length (loggers w))%nat as [|k]; simpl in Hl;
          [|destruct k; discriminate].
        injection Hl as <-. simpl in Hin.
        apply not_elem_of_nil in Hin. contradiction.
Qed.

(** C2: on a generator whose logger and handler exist, a level string that
    lowers to one of the six names makes [generate] set the threshold of
    that name on both the logger and the handler (critical and fatal both
    give CRITICAL), and return the logger when the format is accepted; no
    level gives INFO on both; any other non-empty string makes [generate]
    raise the invalid-level [ValueError] with nothing changed. *)
Theorem generate_applies_level (self : t) (fmt : option string)
    (w : world) :
  is_Some (loggers w !! _logger self) ->
  is_Some (file_handlers w !! _handler self) ->
  (forall s nm z, (nm, z) ∈ level_names -> lower s = nm ->
     logger_level (final (generate self (Some s) fmt w)) (_logger self)
     = Some z /\
     handler_level (final (generate self (Some s) fmt w)) (_handler self)
     = Some z /\
     (valid_format w (chosen_format self fmt) = true ->
      exists w', generate self (Some s) fmt w
                 = Returned (_logger self) w')) /\
  (logger_level (final (generate self None fmt w)) (_logger self)
   = Some logging.INFO /\
   handler_level (final (generate self None fmt w)) (_handler self)
   = Some logging.INFO /\
   (valid_format w (chosen_format self fmt) = true ->
    exists w', generate self None fmt w = Returned (_logger self) w')) /\
  (forall s, s <> "" ->
     (forall nm z, (nm, z) ∈ level_names -> lower s <> nm) ->
     generate self (Some s) fmt w = Raised invalid_level_error w).
Proof.
  intros Hlg Hfh. split; [|split].
  - intros s nm z Hin Hl.
    pose proof (parse_level_name s nm z w Hin Hl) as Hp.
    destruct (generate_levels self (Some s) fmt z w Hp Hlg Hfh) as [H1 H2].
    split; [assumption|]. split; [assumption|].
    intros Hv.
    destruct (generate_runs self (Some s) fmt z w Hp Hv Hlg)
      as (w' & Hg & _).
    eauto.
  - pose proof (parse_level_absent w) as Hp.
    destruct (generate_levels self None fmt _ w Hp Hlg Hfh) as [H1 H2].
    split; [assumption|]. split; [assumption|].
    intros Hv.
    destruct (generate_runs self None fmt _ w Hp Hv Hlg) as (w' & Hg & _).
    eauto.
  - intros s Hs Hn. apply generate_invalid_level.
    apply parse_level_other; assumption.
Qed.

Lemma generate_applies_level_witness :
  (is_Some (loggers w_testing !! _logger g_testing) /\
   is_Some (file_handlers w_testing !! _handler g_testing) /\
   ("fatal", logging.CRITICAL) ∈ level_names /\ lower "FaTaL" = "fatal") /\
  logger_level (final (generate g_testing (Some "FaTaL") None w_testing))
    0%nat = Some 50 /\
  handler_level (final (generate g_testing (Some "FaTaL") None w_testing))
    0%nat = Some 50.
Proof.
  assert (Hlg : is_Some (loggers w_testing !! _logger g_testing))
    by (eexists; reflexivity).
  assert (Hfh : is_Some (file_handlers w_testing !! _handler g_testing))
    by (eexists; reflexivity).
  assert (Hin : ("fatal", logging.CRITICAL) ∈ level_names)
    by (unfold level_names; repeat constructor).
  split; [repeat split; assumption|].
  destruct (proj1 (generate_applies_level g_testing None w_testing Hlg Hfh)
              "FaTaL" "fatal" logging.CRITICAL Hin eq_refl)
    as (H1 & H2 & _).
  split; assumption.
Defined.

(** C8 as stated fails: the handler is made by the constructor, so a second
    [generate] on the same generator presents the handler that is already
    attached, and the logger's handler list stays as it is. *)
Lemma second_generate_attaches_nothing :
  generate g_testing None None w_testing = Returned 0%nat w_generated /\
  logger_handlers w_generated 0%nat = [0%nat] /\
  generate g_testing None None w_generated = Returned 0%nat w_generated /\
  ~ generate_attaches_new_handler.
Proof.
  assert (H2 : generate g_testing None None w_generated
               = Returned 0%nat w_generated) by reflexivity.
  split; [reflexivity|]. split; [reflexivity|]. split; [exact H2|].
  intros H.
  destruct (H g_testing None None w_generated 0%nat w_generated H2)
    as (h & _ & Hh).
  discriminate Hh.
Qed.

(** C8, amended: constructing a [LoggerGenerator] makes a handler object
    that is attached to no logger, and the [generate] call that follows
    attaches it at the end of the handler list of the registry's logger for
    that name, whatever is attached there already, a handler for the same
    path included: nothing is compared by name or path, and the earlier
    handlers stay. *)
Theorem new_generator_attaches_new_handler (p : string)
    (nm lv fmt : option string) (w : world) :
  wf_world w -> openable w p = true -> recognised_level lv ->
  valid_format w (format_in_use fmt) = true ->
  exists g w1 w2,
    __init__ p nm w = Returned g w1 /\
    generate g lv fmt w1 = Returned (_logger g) w2 /\
    loggerDict w2 !! name_in_use nm = Some (_logger g) /\
    (forall l lg, loggers w !! l = Some lg ->
                  _handler g ∉ logging.handlers lg) /\
    logger_handlers w2 (_logger g)
    = (logger_handlers w (_logger g) ++ [_handler g])%list /\
    logging.baseFilename <$> file_handlers w2 !! _handler g = Some p /\
    (forall h q, logging.baseFilename <$> file_handlers w !! h = Some q ->
                 logging.baseFilename <$> file_handlers w2 !! h = Some q) /\
    wf_world w2 /\ openable w2 = openable w /\
    valid_format w2 = valid_format w.
Proof.
  intros Hwf Ho Hlv Hv.
  destruct (init_runs p nm w Hwf Ho)
    as (g & w1 & Hinit & Hh & Hdf & Hnew & Hold & Hlg & Hsame & Hfresh &
        Hreg & Hwf1 & Ho1 & Hv1 & Htr1).
  destruct (recognised_level_parses lv Hlv) as [z Hp].
  assert (Hv' : valid_format w1 (chosen_format g fmt) = true).
  { rewrite Hv1. unfold chosen_format. rewrite Hdf. exact Hv. }
  destruct (generate_runs g lv fmt z w1 (Hp w1) Hv' Hlg)
    as (w2 & Hg & Hhs & Hll & Hlh & Hd & Htr & Hother & Hpaths).
  assert (Hlt : (_handler g < length (file_handlers w1))%nat).
  { apply lookup_lt_is_Some_1. rewrite Hnew. eauto. }
  destruct (generate_wf g lv fmt _ w1 w2 Hwf1 Hlt Hg) as (Hwf2 & Ho2 & Hv2).
  exists g, w1, w2. split; [assumption|]. split; [assumption|].
  split; [rewrite Hd; assumption|].
  split.
  { intros l lg Hl Hin. destruct Hwf as [_ Hh0].
    specialize (Hh0 _ _ _ Hl Hin). lia. }
  split.
  { rewrite Hhs, Hsame. rewrite bool_decide_eq_false_2 by assumption.
    reflexivity. }
  split; [apply Hpaths; rewrite Hnew; reflexivity|].
  split.
  { intros h q Hq. apply Hpaths. rewrite Hold; [assumption|].
    intros ->. rewrite Hh in Hq.
    rewrite (lookup_ge_None_2 (file_handlers w)) in Hq by lia.
    discriminate. }
  split; [assumption|]. split; congruence.
Qed.

Lemma wf_w_first : wf_world w_first.
Proof.
  assert (Hd : loggerDict w_first = {["testing" := 0%nat]}) by reflexivity.
  assert (Hl : loggers w_first
               = [{| logging.name := "testing";
                     logging.level := logging.INFO;
                     logging.handlers := [0%nat] |}]) by reflexivity.
  assert (Hf : length (file_handlers w_first) = 1%nat) by reflexivity.
  unfold wf_world. rewrite Hd, Hl, Hf. split.
  - intros n l H. apply lookup_singleton_Some in H as [_ <-]. simpl. lia.
  - intros [|l] lg h H Hin; [|destruct l; discriminate].
    injection H as <-. simpl in Hin.
    apply list_elem_of_singleton in Hin. lia.
Qed.

Lemma new_generator_attaches_new_handler_witness :
  (wf_world w_first /\ openable w_first "test.log" = true /\
   recognised_level None /\
   valid_format w_first (format_in_use None) = true) /\
  exists g w1 w2,
    __init__ "test.log" (Some "testing") w_first = Returned g w1 /\
    generate g None None w1 = Returned (_logger g) w2 /\
    logger_handlers w2 (_logger g)
    = (logger_handlers w_first (_logger g) ++ [_handler g])%list /\
    logging.baseFilename <$> file_handlers w2 !! _handler g
    = Some "test.log".
Proof.
  assert (Hlv : recognised_level None) by (left; reflexivity).
  split.
  { split; [exact wf_w_first|]. split; [reflexivity|].
    split; [exact Hlv|reflexivity]. }
  destruct (new_generator_attaches_new_handler "test.log" (Some "testing")
              None None w_first wf_w_first eq_refl Hlv eq_refl)
    as (g & w1 & w2 & H1 & H2 & _ & _ & H3 & H4 & _).
  exists g, w1, w2. auto.
Defined.

(** The same name and path twice: the logger of [main]'s first object
    ends up with two handlers writing to the one file. *)
Example rebuilding_accumulates :
  exists w,
    (MessageHandlingObject.__init__ false false (Some "test.log")
       (Some "testing") None None None;;
     MessageHandlingObject.__init__ false false (Some "test.log")
       (Some "testing") None None None;; mret tt) w0 = Returned tt w /\
    logger_handlers w 0%nat = [0%nat; 1%nat] /\
    logging.baseFilename <$> file_handlers w = ["test.log"; "test.log"].
Proof.
  eexists. split; [vm_compute; reflexivity|].
  split; vm_compute; reflexivity.
Qed.

(** The module's [main]: one console line, one warning, three log calls on
    the first object's logger, and the error comes out. *)
Example main_trace :
  exists w,
    main w0 = Raised (ValueError "An error") w /\
    trace w = [Print "Info text" [];
               LogCall 0 logging.INFO (MsgStr "Info text") false;
               Warn "Warning text";
               LogCall 0 logging.WARNING (MsgStr "Warning text") false;
               LogCall 0 logging.ERROR (MsgExc (ValueError "An error"))
                 true] /\
    loggers w = [{| logging.name := "testing";
                    logging.level := logging.INFO;
                    logging.handlers := [0%nat] |}].
Proof.
  eexists. split; [vm_compute; reflexivity|].
  split; vm_compute; reflexivity.
Qed.

End Generate.

(** * Further properties of the module *)

(** ** The logger registry and the constructor of [LoggerGenerator] *)

Section Registry.
Import LoggerGenerator.

Lemma name_in_use_source (nm : option string) :
  (if negb (truthy nm) then "messagehandler" else default "" nm)
  = name_in_use nm.
Proof. unfold name_in_use. destruct (truthy nm); reflexivity. Qed.

Lemma create_logger_runs (nm : option string) (w : world) :
  _create_logger nm w
  = Returned (logger_for (name_in_use nm) w)
      (with_logger (name_in_use nm) w).
Proof.
  unfold _create_logger, getLogger, logger_for, with_logger.
  rewrite name_in_use_source.
  destruct (loggerDict w !! name_in_use nm); reflexivity.
Qed.

Lemma with_logger_frame (nm : string) (w : world) :
  file_handlers (with_logger nm w) = file_handlers w /\
  openable (with_logger nm w) = openable w /\
  valid_format (with_logger nm w) = valid_format w /\
  held (with_logger nm w) = held w /\
  next_lock (with_logger nm w) = next_lock w /\
  trace (with_logger nm w) = trace w.
Proof.
  unfold with_logger. destruct (loggerDict w !! nm); simpl; auto 10.
Qed.

Lemma with_logger_registered (nm : string) (w : world) :
  loggerDict (with_logger nm w) !! nm = Some (logger_for nm w).
Proof.
  unfold with_logger, logger_for.
  destruct (loggerDict w !! nm) eqn:H; simpl; [assumption|].
  apply lookup_insert_eq.
Qed.

(** The constructor in full. *)
Lemma init_opened (p : string) (nm : option string) (w : world) :
  openable w p = true ->
  __init__ p nm w
  = Returned
      {| _logger := logger_for (name_in_use nm) w;
         _handler := length (file_handlers w);
         default_format :=
           "%(asctime)s:%(levelname)s:%(name)s:%(message)s" |}
      (set_file_handlers (file_handlers w ++ [fresh_handler p])
         (with_logger (name_in_use nm) w)).
Proof.
  intros Ho. unfold __init__, _create_file_handler, new_FileHandler. run.
  rewrite create_logger_runs.
  destruct (with_logger_frame (name_in_use nm) w) as (Hf & Hop & _).
  rewrite Hop, Ho, Hf. reflexivity.
Qed.

Lemma init_unopenable (p : string) (nm : option string) (w : world) :
  openable w p = false ->
  __init__ p nm w = Raised (OSError p) (with_logger (name_in_use nm) w).
Proof.
  intros Ho. unfold __init__, _create_file_handler, new_FileHandler. run.
  rewrite create_logger_runs.
  destruct (with_logger_frame (name_in_use nm) w) as (Hf & Hop & _).
  rewrite Hop, Ho. reflexivity.
Qed.

Lemma with_logger_injective (nm : string) (w : world) :
  wf_world w -> registry_injective w ->
  registry_injective (with_logger nm w).
Proof.
  intros [Hr _] Hinj. unfold with_logger.
  destruct (loggerDict w !! nm) eqn:Hreg; [assumption|].
  intros n1 n2 l. simpl. rewrite !lookup_insert_Some.
  intros [[<- <-]|[Hne1 H1]] [[<- H2]|[Hne2 H2]]; auto.
  - apply Hr in H2. lia.
  - apply Hr in H1. subst l. lia.
  - eauto.
Qed.

(** X1: generators asked for the same name in use (an absent or empty name
    counts as "messagehandler") get the same Logger object and different
    handler objects, and the second construction adds no Logger; on a
    registry that keeps names apart, generators asked for different names
    get different Logger objects. *)
Theorem same_name_same_logger (p1 p2 : string) (n1 n2 : option string)
    (w : world) :
  wf_world w -> registry_injective w ->
  openable w p1 = true -> openable w p2 = true ->
  exists g1 w1 g2 w2,
    __init__ p1 n1 w = Returned g1 w1 /\
    __init__ p2 n2 w1 = Returned g2 w2 /\
    _handler g1 <> _handler g2 /\
    (name_in_use n1 = name_in_use n2 ->
     _logger g1 = _logger g2 /\ loggers w2 = loggers w1) /\
    (name_in_use n1 <> name_in_use n2 -> _logger g1 <> _logger g2).
Proof.
  intros Hwf Hinj Ho1 Ho2.
  set (w1 := set_file_handlers (file_handlers w ++ [fresh_handler p1])
               (with_logger (name_in_use n1) w)).
  assert (Ho2' : openable w1 p2 = true).
  { unfold w1. simpl.
    destruct (with_logger_frame (name_in_use n1) w) as (_ & -> & _).
    assumption. }
  eexists _, w1, _, _.
  split; [apply init_opened; assumption|].
  split; [apply init_opened; assumption|]. simpl.
  assert (Hreg1 : loggerDict w1 !! name_in_use n1
                  = Some (logger_for (name_in_use n1) w))
    by apply with_logger_registered.
  split; [|split].
  - unfold w1. simpl. rewrite length_app. simpl. lia.
  - intros Heq. rewrite <- Heq. unfold logger_for at 2, with_logger at 1.
    unfold w1 at 1 2. simpl.
    change (loggerDict (with_logger (name_in_use n1) w))
      with (loggerDict w1).
    rewrite Hreg1. simpl. split; reflexivity.
  - intros Hne Heq.
    assert (Hinj1 : registry_injective w1)
      by (apply with_logger_injective; assumption).
    unfold logger_for at 2 in Heq.
    destruct (loggerDict w1 !! name_in_use n2) as [l2|] eqn:Hreg2;
      simpl in Heq.
    + subst l2. apply Hne. eapply Hinj1; eassumption.
    + assert (Hlt : (logger_for (name_in_use n1) w
                     < length (loggers w1))%nat).
      { unfold w1, with_logger, logger_for. simpl.
        destruct Hwf as [Hr _].
        destruct (loggerDict w !! name_in_use n1) as [l|] eqn:H; simpl.
        - eauto.
        - rewrite length_app. simpl. lia. }
      change (loggers w1)
        with (loggers (with_logger (name_in_use n1) w)) in Hlt.
      lia.
Qed.

End Registry.

Section RegistryExamples.
Import LoggerGenerator.

Lemma wf_w0 : wf_world w0.
Proof.
  split; simpl.
  - intros n l H. rewrite lookup_empty in H. discriminate.
  - intros l lg h H. destruct l; discriminate.
Qed.

Lemma registry_injective_w0 : registry_injective w0.
Proof. intros n1 n2 l H. simpl in H. rewrite lookup_empty in H. discriminate. Qed.

Lemma same_name_same_logger_witness :
  (wf_world w0 /\ registry_injective w0 /\
   openable w0 "a.log" = true /\ openable w0 "b.log" = true /\
   name_in_use None = name_in_use (Some "")) /\
  exists g1 w1 g2 w2,
    __init__ "a.log" None w0 = Returned g1 w1 /\
    __init__ "b.log" (Some "") w1 = Returned g2 w2 /\
    _handler g1 <> _handler g2 /\ _logger g1 = _logger g2.
Proof.
  split.
  { split; [exact wf_w0|]. split; [exact registry_injective_w0|].
    repeat split. }
  destruct (same_name_same_logger "a.log" "b.log" None (Some "") w0
              wf_w0 registry_injective_w0 eq_refl eq_refl)
    as (g1 & w1 & g2 & w2 & H1 & H2 & H3 & H4 & _).
  exists g1, w1, g2, w2. destruct (H4 eq_refl) as [H5 _]. auto.
Defined.

(** X2: when the log file cannot be opened, the constructor of
    [LoggerGenerator] raises the [OSError], and so do the constructor of
    [MessageHandlingObject] and [set_logger] given that path and no shared
    logger, whatever the level and format arguments are (an unrecognised
    level included: the file is opened first).  The logger for the name has
    been looked up by then: the name is registered afterwards, a Logger
    object with no level and no handlers has been added if the name was
    new, and no handler object exists for the path. *)
Theorem unopenable_path_raises (p : string) (nm lv fmt : option string)
    (w : world) :
  openable w p = false ->
  exists w',
    __init__ p nm w = Raised (OSError p) w' /\
    (forall verbose suppress_warnings,
       MessageHandlingObject.__init__ verbose suppress_warnings (Some p) nm
         lv fmt None w = Raised (OSError p) w') /\
    (forall self,
       MessageHandlingObject.set_logger self (Some p) nm lv fmt None w
       = Raised (OSError p) w') /\
    is_Some (loggerDict w' !! name_in_use nm) /\
    (is_Some (loggerDict w !! name_in_use nm) -> w' = w) /\
    (loggerDict w !! name_in_use nm = None ->
     loggers w' = (loggers w ++ [fresh_logger (name_in_use nm)])%list) /\
    file_handlers w' = file_handlers w /\ trace w' = trace w.
Proof.
  intros Ho. exists (with_logger (name_in_use nm) w).
  pose proof (init_unopenable p nm w Ho) as Hi.
  split; [assumption|].
  split.
  { intros. unfold MessageHandlingObject.__init__,
      MessageHandlingObject._init_logger. run. rewrite Hi. reflexivity. }
  split.
  { intros. unfold MessageHandlingObject.set_logger,
      MessageHandlingObject._init_logger. run. rewrite Hi. reflexivity. }
  split; [rewrite with_logger_registered; eauto|].
  destruct (with_logger_frame (name_in_use nm) w)
    as (Hf & _ & _ & _ & _ & Ht).
  unfold with_logger in *. split; [|split; [|split]].
  - intros [l Hl]. rewrite Hl. reflexivity.
  - intros Hn. rewrite Hn. reflexivity.
  - assumption.
  - assumption.
Qed.

Lemma unopenable_path_raises_witness :
  openable w_readonly "/" = false /\
  exists w',
    __init__ "/" None w_readonly = Raised (OSError "/") w' /\
    loggers w' = [fresh_logger "messagehandler"] /\
    file_handlers w' = [].
Proof.
  split; [reflexivity|].
  destruct (unopenable_path_raises "/" None (Some "bogus") None w_readonly
              eq_refl)
    as (w' & H1 & _ & _ & _ & _ & H2 & H3 & _).
  exists w'. split; [exact H1|]. split; [|exact H3].
  apply H2. reflexivity.
Defined.

End RegistryExamples.

(** ** More on [generate] *)

Section GenerateMore.
Import LoggerGenerator.

Lemma parse_level_pure (lv : option string) (z : Z) (w w' : world) :
  _parse_logger_level lv w = Returned z w' ->
  w' = w /\ forall w2, _parse_logger_level lv w2 = Returned z w2.
Proof.
  unfold _parse_logger_level. run.
  repeat match goal with
         | |- context [if ?b then _ else _] => destruct b
         end; intros H; inversion H; subst; auto.
Qed.

(** [generate] in full, for a level that parses and a format that is
    accepted. *)
Lemma generate_world (self : t) (lv fmt : option string) (z : Z)
    (w : world) :
  _parse_logger_level lv w = Returned z w ->
  valid_format w (chosen_format self fmt) = true ->
  generate self lv fmt w
  = Returned (_logger self)
      (set_loggers
         (alter (fun lg =>
                   {| logging.name := logging.name lg;
                      logging.level := logging.level lg;
                      logging.handlers :=
                        if bool_decide (_handler self ∈ logging.handlers lg)
                        then logging.handlers lg
                        else (logging.handlers lg ++ [_handler self])%list
                   |})
            (_logger self)
            (alter (fun lg =>
                      {| logging.name := logging.name lg;
                         logging.level := z;
                         logging.handlers := logging.handlers lg |})
               (_logger self) (loggers w)))
         (set_file_handlers
            (alter (fun fh =>
                      {| logging.baseFilename := logging.baseFilename fh;
                         logging.h_level := logging.h_level fh;
                         logging.formatter :=
                           Some (chosen_format self fmt) |})
               (_handler self)
               (alter (fun fh =>
                         {| logging.baseFilename := logging.baseFilename fh;
                            logging.h_level := z;
                            logging.formatter := logging.formatter fh |})
                  (_handler self) (file_handlers w)))
            w)).
Proof.
  intros Hp Hv.
  unfold generate, _set_logger_level, _apply_formatting, Formatter,
    Logger_setLevel, Handler_setLevel, Handler_setFormatter,
    Logger_addHandler.
  run. rewrite Hp. simpl. fold (chosen_format self fmt). rewrite Hv.
  reflexivity.
Qed.

(** X3: when the level parses but [Formatter] rejects the format string,
    [generate] raises the formatter's [ValueError] half way: both
    thresholds are already set, while the handler keeps the formatter it
    had and is not attached to the logger. *)
Theorem rejected_format_half_configures (self : t) (lv fmt : option string)
    (z : Z) (w : world) :
  _parse_logger_level lv w = Returned z w ->
  valid_format w (chosen_format self fmt) = false ->
  is_Some (loggers w !! _logger self) ->
  is_Some (file_handlers w !! _handler self) ->
  exists w',
    generate self lv fmt w = Raised (ValueError "Invalid format") w' /\
    logger_level w' (_logger self) = Some z /\
    handler_level w' (_handler self) = Some z /\
    logger_handlers w' (_logger self) = logger_handlers w (_logger self) /\
    handler_formatter w' (_handler self)
    = handler_formatter w (_handler self).
Proof.
  intros Hp Hv [lg Hlg] [fh Hfh].
  unfold generate, _set_logger_level, _apply_formatting, Formatter,
    Logger_setLevel, Handler_setLevel, Handler_setFormatter,
    Logger_addHandler.
  run. rewrite Hp. simpl. fold (chosen_format self fmt). rewrite Hv.
  eexists. split; [reflexivity|].
  unfold logger_level, handler_level, logger_handlers, handler_formatter.
  simpl. rewrite !list_lookup_alter_eq, Hlg, Hfh. auto.
Qed.

(** X4: when [generate] succeeds, the handler carries the caller's format
    string as given if it is non-empty, and the generator's default format
    if the format is absent or empty. *)
Theorem generate_sets_format (self : t) (lv fmt : option string) (z : Z)
    (w : world) :
  _parse_logger_level lv w = Returned z w ->
  valid_format w (chosen_format self fmt) = true ->
  is_Some (file_handlers w !! _handler self) ->
  exists w',
    generate self lv fmt w = Returned (_logger self) w' /\
    (absent_or_empty fmt ->
     handler_formatter w' (_handler self)
     = Some (Some (default_format self))) /\
    (forall s, fmt = Some s -> s <> "" ->
               handler_formatter w' (_handler self) = Some (Some s)).
Proof.
  intros Hp Hv [fh Hfh]. rewrite (generate_world self lv fmt z w Hp Hv).
  eexists. split; [reflexivity|].
  unfold handler_formatter. simpl. rewrite !list_lookup_alter_eq, Hfh.
  simpl. unfold chosen_format. split.
  - intros [->| ->]; reflexivity.
  - intros s -> Hs. simpl. apply String.eqb_neq in Hs. rewrite Hs.
    reflexivity.
Qed.

(** X5: [generate] is idempotent on a generator: a second call with the
    same arguments returns the same logger and changes nothing, the
    handler list included. *)
Theorem generate_idempotent (self : t) (lv fmt : option string) (l : loc)
    (w w1 : world) :
  generate self lv fmt w = Returned l w1 ->
  generate self lv fmt w1 = Returned l w1.
Proof.
  intros H.
  destruct (_parse_logger_level lv w) as [z wp|e wp|wp] eqn:Hp.
  - destruct (parse_level_pure lv z w wp Hp) as [-> Hall].
    destruct (valid_format w (chosen_format self fmt)) eqn:Hv.
    + rewrite (generate_world self lv fmt z w Hp Hv) in H.
      injection H as <- Hw.
      assert (Hv1 : valid_format w1 (chosen_format self fmt) = true)
        by (rewrite <- Hw; exact Hv).
      rewrite (generate_world self lv fmt z w1 (Hall w1) Hv1).
      subst w1. f_equal. apply world_eq; simpl; auto.
      * rewrite !list_alter_alter_eq. apply list_alter_ext; [|reflexivity].
        intros lg _. simpl.
        destruct (bool_decide (_handler self ∈ logging.handlers lg))
          eqn:Hin; simpl.
        -- rewrite Hin. reflexivity.
        -- rewrite bool_decide_eq_true_2; [reflexivity|].
           apply elem_of_app. right. apply list_elem_of_singleton.
           reflexivity.
      * rewrite !list_alter_alter_eq. apply list_alter_ext; reflexivity.
    + exfalso. revert H.
      unfold generate, _set_logger_level, _apply_formatting, Formatter.
      run. rewrite Hp. simpl. fold (chosen_format self fmt). rewrite Hv.
      discriminate.
  - exfalso. revert H. unfold generate, _set_logger_level. run.
    rewrite Hp. discriminate.
  - exfalso. revert H. unfold generate, _set_logger_level. run.
    rewrite Hp. discriminate.
Qed.

End GenerateMore.

Section GenerateExamples.
Import LoggerGenerator.

Lemma rejected_format_half_configures_witness :
  (_parse_logger_level (Some "debug") w_strict_testing
   = Returned logging.DEBUG w_strict_testing /\
   valid_format w_strict_testing (chosen_format g_testing (Some "plain"))
   = false) /\
  exists w',
    generate g_testing (Some "debug") (Some "plain") w_strict_testing
    = Raised (ValueError "Invalid format") w' /\
    logger_level w' 0%nat = Some logging.DEBUG /\
    logger_handlers w' 0%nat = [].
Proof.
  split; [split; reflexivity|].
  destruct (rejected_format_half_configures g_testing (Some "debug")
              (Some "plain") logging.DEBUG w_strict_testing eq_refl eq_refl
              (ex_intro _ _ eq_refl) (ex_intro _ _ eq_refl))
    as (w' & H1 & H2 & _ & H3 & _).
  exists w'. split; [exact H1|]. split; [exact H2|]. exact H3.
Defined.

Lemma generate_sets_format_witness :
  (_parse_logger_level None w_testing = Returned logging.INFO w_testing /\
   valid_format w_testing (chosen_format g_testing (Some "%(message)s"))
   = true) /\
  exists w',
    generate g_testing None (Some "%(message)s") w_testing
    = Returned 0%nat w' /\
    handler_formatter w' 0%nat = Some (Some "%(message)s").
Proof.
  split; [split; reflexivity|].
  destruct (generate_sets_format g_testing None (Some "%(message)s")
              logging.INFO w_testing eq_refl eq_refl (ex_intro _ _ eq_refl))
    as (w' & H1 & _ & H2).
  exists w'. split; [exact H1|]. apply H2; [reflexivity|discriminate].
Defined.

Lemma generate_idempotent_witness :
  generate g_testing None None w_testing = Returned 0%nat w_generated /\
  generate g_testing None None w_generated = Returned 0%nat w_generated.
Proof.
  assert (H : generate g_testing None None w_testing
              = Returned 0%nat w_generated) by reflexivity.
  split; [exact H|].
  exact (generate_idempotent g_testing None None 0%nat w_testing
           w_generated H).
Defined.

End GenerateExamples.

(** ** More on level parsing *)

Section Levels.
Import LoggerGenerator.

Lemma lower_char_idempotent (c : ascii) :
  lower_char (lower_char c) = lower_char c.
Proof.
  destruct c as [b0 b1 b2 b3 b4 b5 b6 b7];
    destruct b0, b1, b2, b3, b4, b5, b6, b7; reflexivity.
Qed.

Lemma lower_idempotent (s : string) : lower (lower s) = lower s.
Proof.
  induction s as [|c s IH]; simpl; [reflexivity|].
  rewrite lower_char_idempotent, IH. reflexivity.
Qed.

Lemma parse_level_range (lv : option string) (z : Z) (w w' : world) :
  _parse_logger_level lv w = Returned z w' ->
  In z [logging.DEBUG; logging.INFO; logging.WARNING; logging.ERROR;
        logging.CRITICAL].
Proof.
  unfold _parse_logger_level. run.
  repeat match goal with
         | |- context [if ?b then _ else _] => destruct b
         end; intros H; inversion H; subst; simpl; auto 10.
Qed.

(** X6: the level parser does not tell a string from its lower-cased form:
    both give the same threshold or both the same error. *)
Theorem parse_level_ignores_case (s : string) (w : world) :
  _parse_logger_level (Some (lower s)) w = _parse_logger_level (Some s) w.
Proof.
  unfold _parse_logger_level.
  assert (Ht : truthy (Some (lower s)) = truthy (Some s))
    by (destruct s; reflexivity).
  rewrite Ht. simpl. rewrite lower_idempotent. reflexivity.
Qed.

(** X7: whenever [generate] returns, the logger and the handler carry the
    same threshold, and it is one of DEBUG, INFO, WARNING, ERROR and
    CRITICAL: a generated logger is never left at NOTSET. *)
Theorem generate_thresholds_agree (self : t) (lv fmt : option string)
    (l : loc) (w w' : world) :
  generate self lv fmt w = Returned l w' ->
  is_Some (loggers w !! _logger self) ->
  is_Some (file_handlers w !! _handler self) ->
  exists z,
    logger_level w' l = Some z /\
    handler_level w' (_handler self) = Some z /\
    In z [logging.DEBUG; logging.INFO; logging.WARNING; logging.ERROR;
          logging.CRITICAL].
Proof.
  intros H Hlg Hfh.
  destruct (_parse_logger_level lv w) as [z wp|e wp|wp] eqn:Hp.
  - pose proof (parse_level_range lv z w wp Hp) as Hr.
    destruct (parse_level_pure lv z w wp Hp) as [-> _].
    destruct (generate_levels self lv fmt z w Hp Hlg Hfh) as [H1 H2].
    rewrite H in H1, H2. simpl in H1, H2.
    assert (l = _logger self) as ->.
    { revert H. unfold generate. run.
      repeat match goal with
             | |- context [match ?m with _ => _ end] =>
                 destruct m; try discriminate
             end.
      intros H; inversion H; reflexivity. }
    eauto.
  - exfalso. revert H. unfold generate, _set_logger_level. run.
    rewrite Hp. discriminate.
  - exfalso. revert H. unfold generate, _set_logger_level. run.
    rewrite Hp. discriminate.
Qed.

Lemma generate_thresholds_agree_witness :
  generate g_testing (Some "ERROR") None w_testing
  = Returned 0%nat
      (final (generate g_testing (Some "ERROR") None w_testing)) /\
  exists z,
    logger_level (final (generate g_testing (Some "ERROR") None w_testing))
      0%nat = Some z /\
    handler_level (final (generate g_testing (Some "ERROR") None w_testing))
      0%nat = Some z.
Proof.
  assert (H : generate g_testing (Some "ERROR") None w_testing
              = Returned 0%nat
                  (final (generate g_testing (Some "ERROR") None
                            w_testing))) by reflexivity.
  split; [exact H|].
  destruct (generate_thresholds_agree g_testing (Some "ERROR") None 0%nat
              w_testing _ H (ex_intro _ _ eq_refl) (ex_intro _ _ eq_refl))
    as (z & H1 & H2 & _).
  exists z. split; assumption.
Defined.

End Levels.

(** ** More on message dispatch *)

Section DispatchMore.
Import MessageHandlingObject.

Lemma obtainable_or_held (self : t) (w : world) :
  lock_obtainable self w \/
  (_use_threaded_log_locks self = true /\ _log_lock self ∈ held w).
Proof.
  unfold lock_obtainable.
  destruct (_use_threaded_log_locks self); [|auto].
  destruct (decide (_log_lock self ∈ held w)); auto.
Qed.

Lemma emit_all_app (a b : list event) (w : world) :
  emit_all b (emit_all a w) = emit_all (a ++ b) w.
Proof. apply world_eq; simpl; auto. rewrite app_assoc. reflexivity. Qed.

(** X8: a [_print] or [_warn] that gets past the lock changes nothing but
    the trace (the lock is free again, loggers, handlers and registry are
    untouched), so the next call gets past the lock too: a [_print]
    followed by a [_warn] returns, with the outputs of the first followed
    by the outputs of the second. *)
Theorem print_then_warn_returns (self : t) (s1 s2 : string)
    (kwargs : list (string * string)) (w : world) :
  lock_obtainable self w ->
  exists evs1 evs2,
    _print self s1 kwargs w = Returned tt (emit_all evs1 w) /\
    lock_obtainable self (emit_all evs1 w) /\
    _warn self s2 (emit_all evs1 w)
    = Returned tt (emit_all (evs1 ++ evs2) w) /\
    (_print self s1 kwargs;; _warn self s2) w
    = Returned tt (emit_all (evs1 ++ evs2) w) /\
    outputs (evs1 ++ evs2) =
      ((if _verbose self then [Print s1 kwargs] else []) ++
       match _logger self with
       | Some lg => [LogCall lg logging.INFO (MsgStr s1) false]
       | None => []
       end ++
       (if _suppress_warnings self then [] else [Warn s2]) ++
       match _logger self with
       | Some lg => [LogCall lg logging.WARNING (MsgStr s2) false]
       | None => []
       end)%list.
Proof.
  intros Hl.
  assert (Hl' : forall evs, lock_obtainable self (emit_all evs w))
    by (intros; exact Hl).
  do 2 eexists.
  split; [apply print_runs; assumption|].
  split; [apply Hl'|].
  assert (Hw : forall evs,
             _warn self s2 (emit_all evs w)
             = Returned tt
                 (emit_all (evs ++ locking self
                    ((if _suppress_warnings self then [] else [Warn s2]) ++
                     match _logger self with
                     | Some lg =>
                         [LogCall lg logging.WARNING (MsgStr s2) false]
                     | None => []
                     end)) w)).
  { intros evs. rewrite warn_runs by apply Hl'. rewrite emit_all_app.
    reflexivity. }
  split; [apply Hw|].
  split.
  { run. rewrite print_runs by assumption. apply Hw. }
  unfold outputs. rewrite List.filter_app.
  fold (outputs (locking self
          ((if _verbose self then [Print s1 kwargs] else []) ++
           match _logger self with
           | Some lg => [LogCall lg logging.INFO (MsgStr s1) false]
           | None => []
           end))).
  fold (outputs (locking self
          ((if _suppress_warnings self then [] else [Warn s2]) ++
           match _logger self with
           | Some lg => [LogCall lg logging.WARNING (MsgStr s2) false]
           | None => []
           end))).
  rewrite !outputs_locking.
  - rewrite <- app_assoc. reflexivity.
  - destruct (_suppress_warnings self), (_logger self); reflexivity.
  - destruct (_verbose self), (_logger self); reflexivity.
Qed.

(** X9: an object with thread-safe logging off never looks at its lock:
    whether the lock is held or not, [_print] and [_warn] return and
    [_raise] raises the error, and each changes the world by output events
    only, with no acquisition and no release. *)
Theorem unlocked_dispatch_ignores_lock (self : t) (w : world) :
  _use_threaded_log_locks self = false ->
  (forall s kwargs, exists evs,
     _print self s kwargs w = Returned tt (emit_all evs w) /\
     forallb is_output evs = true) /\
  (forall s, exists evs,
     _warn self s w = Returned tt (emit_all evs w) /\
     forallb is_output evs = true) /\
  (forall error, exists evs,
     _raise self error w = Raised error (emit_all evs w) /\
     forallb is_output evs = true).
Proof.
  intros Hf.
  assert (Hl : lock_obtainable self w) by (left; assumption).
  split; [|split].
  - intros s kwargs. rewrite print_runs by assumption.
    unfold locking. rewrite Hf. eexists. split; [reflexivity|].
    destruct (_verbose self), (_logger self); reflexivity.
  - intros s. rewrite warn_runs by assumption.
    unfold locking. rewrite Hf. eexists. split; [reflexivity|].
    destruct (_suppress_warnings self), (_logger self); reflexivity.
  - intros error. rewrite raise_runs by assumption. rewrite Hf.
    eexists. split; [reflexivity|].
    destruct (_logger self); reflexivity.
Qed.

(** X10: on an object with thread-safe logging on and the lock free,
    [_raise] raises the error and leaves the lock held, with the logger
    store untouched; from then on [_print], [_warn] and [_raise] on that
    object wait for the lock and do nothing. *)
Theorem raise_blocks_later_dispatch (self : t) (error : exc) (w : world) :
  _use_threaded_log_locks self = true -> _log_lock self ∉ held w ->
  exists w',
    _raise self error w = Raised error w' /\
    held w' = {[_log_lock self]} ∪ held w /\
    loggers w' = loggers w /\ file_handlers w' = file_handlers w /\
    (forall s kwargs, _print self s kwargs w' = Blocked w') /\
    (forall s, _warn self s w' = Blocked w') /\
    (forall error', _raise self error' w' = Blocked w').
Proof.
  intros Hf Hl.
  assert (Ho : lock_obtainable self w) by (right; assumption).
  eexists. split; [apply raise_runs; assumption|].
  rewrite Hf. simpl. split; [reflexivity|]. split; [reflexivity|].
  split; [reflexivity|].
  assert (Hin : _log_lock self ∈ {[_log_lock self]} ∪ held w)
    by (apply elem_of_union_l, elem_of_singleton; reflexivity).
  split; [|split]; intros; apply wrapper_blocked; assumption.
Qed.

End DispatchMore.

Section DispatchMoreExamples.
Import MessageHandlingObject.

Lemma print_then_warn_returns_witness :
  lock_obtainable (object_with true false (Some 0%nat) true) w0 /\
  exists evs1 evs2,
    (_print (object_with true false (Some 0%nat) true) "Info text" [];;
     _warn (object_with true false (Some 0%nat) true) "Warning text") w0
    = Returned tt (emit_all (evs1 ++ evs2) w0) /\
    outputs (evs1 ++ evs2)
    = [Print "Info text" [];
       LogCall 0 logging.INFO (MsgStr "Info text") false;
       Warn "Warning text";
       LogCall 0 logging.WARNING (MsgStr "Warning text") false].
Proof.
  assert (Hl : lock_obtainable (object_with true false (Some 0%nat) true)
                 w0) by (right; apply not_elem_of_empty).
  split; [exact Hl|].
  destruct (print_then_warn_returns
              (object_with true false (Some 0%nat) true)
              "Info text" "Warning text" [] w0 Hl)
    as (evs1 & evs2 & _ & _ & _ & H1 & H2).
  exists evs1, evs2. split; [exact H1|exact H2].
Defined.

Lemma unlocked_dispatch_ignores_lock_witness :
  (_use_threaded_log_locks (object_with true false None false) = false /\
   _log_lock (object_with true false None false) ∈ held w_locked) /\
  exists evs,
    _print (object_with true false None false) "x" [] w_locked
    = Returned tt (emit_all evs w_locked) /\
    forallb is_output evs = true.
Proof.
  split.
  { split; [reflexivity|]. unfold w_locked. simpl.
    apply elem_of_singleton. reflexivity. }
  exact (proj1 (unlocked_dispatch_ignores_lock
                  (object_with true false None false) w_locked eq_refl)
           "x" []).
Defined.

Lemma raise_blocks_later_dispatch_witness :
  (_use_threaded_log_locks (object_with false false None true) = true /\
   (_log_lock (object_with false false None true) ∉ held w0)) /\
  exists w',
    _raise (object_with false false None true) (ValueError "An error") w0
    = Raised (ValueError "An error") w' /\
    _warn (object_with false false None true) "Warning text" w'
    = Blocked w'.
Proof.
  split; [split; [reflexivity|apply not_elem_of_empty]|].
  destruct (raise_blocks_later_dispatch (object_with false false None true)
              (ValueError "An error") w0 eq_refl (not_elem_of_empty _))
    as (w' & H1 & _ & _ & _ & _ & H2 & _).
  exists w'. split; [exact H1|apply H2].
Defined.

End DispatchMoreExamples.

(** ** More on choosing the logger *)

Section SourcingMore.
Import MessageHandlingObject.

Lemma log_targets_locking (self : t) (evs : list event) :
  log_targets (locking self evs) = log_targets evs.
Proof.
  unfold locking, log_targets.
  destruct (_use_threaded_log_locks self); [|reflexivity].
  simpl. rewrite omap_app. simpl. apply app_nil_r.
Qed.

(** Without a logger no dispatch makes a logging call, however it ends. *)
Lemma no_logger_no_log_call (self : t) (w : world) :
  _logger self = None ->
  (forall s kwargs,
     log_targets (trace (final (_print self s kwargs w)))
     = log_targets (trace w)) /\
  (forall s,
     log_targets (trace (final (_warn self s w))) = log_targets (trace w)) /\
  (forall error,
     log_targets (trace (final (_raise self error w)))
     = log_targets (trace w)).
Proof.
  intros Hn.
  destruct (obtainable_or_held self w) as [Hl|[Hf Hh]].
  - split; [|split]; intros.
    + rewrite print_runs by assumption. simpl.
      unfold log_targets at 1. rewrite omap_app.
      fold (log_targets (trace w)).
      fold (log_targets (locking self
              ((if _verbose self then [Print s kwargs] else []) ++
               match _logger self with
               | Some lg => [LogCall lg logging.INFO (MsgStr s) false]
               | None => []
               end))).
      rewrite log_targets_locking, Hn.
      destruct (_verbose self); simpl; apply app_nil_r.
    + rewrite warn_runs by assumption. simpl.
      unfold log_targets at 1. rewrite omap_app.
      fold (log_targets (trace w)).
      fold (log_targets (locking self
              ((if _suppress_warnings self then [] else [Warn s]) ++
               match _logger self with
               | Some lg => [LogCall lg logging.WARNING (MsgStr s) false]
               | None => []
               end))).
      rewrite log_targets_locking, Hn.
      destruct (_suppress_warnings self); simpl; apply app_nil_r.
    + rewrite raise_runs by assumption. rewrite Hn. simpl.
      rewrite app_nil_r.
      destruct (_use_threaded_log_locks self); simpl; [|reflexivity].
      unfold log_targets. rewrite omap_app. simpl. apply app_nil_r.
  - split; [|split]; intros;
      unfold _print, _warn, _raise;
      rewrite wrapper_blocked by assumption; reflexivity.
Qed.

(** X11: without a shared logger and without a log file path, the
    constructor and [set_logger] ignore the name, level and format
    arguments (an unrecognised level raises nothing), leave the logger
    store and the trace alone, and give an object without a logger, on
    which no dispatch makes a logging call. *)
Theorem no_source_disables_logging (self : t) (nm lv fmt : option string)
    (w : world) :
  (exists self',
     set_logger self None nm lv fmt None w = Returned self' w /\
     _logger self' = None /\ _verbose self' = _verbose self /\
     _suppress_warnings self' = _suppress_warnings self /\
     _use_threaded_log_locks self' = _use_threaded_log_locks self /\
     _log_lock self' = _log_lock self /\
     forall s kwargs error w1,
       log_targets (trace (final (_print self' s kwargs w1)))
       = log_targets (trace w1) /\
       log_targets (trace (final (_warn self' s w1)))
       = log_targets (trace w1) /\
       log_targets (trace (final (_raise self' error w1)))
       = log_targets (trace w1)) /\
  (forall verbose suppress_warnings, exists self' w',
     __init__ verbose suppress_warnings None nm lv fmt None w
     = Returned self' w' /\
     _logger self' = None /\ loggers w' = loggers w /\
     file_handlers w' = file_handlers w /\
     loggerDict w' = loggerDict w /\ trace w' = trace w).
Proof.
  split.
  - eexists. split; [reflexivity|]. simpl. repeat (split; [reflexivity|]).
    intros s kwargs error w1.
    match goal with
    | |- context [_print ?o _ _ _] =>
        destruct (no_logger_no_log_call o w1 eq_refl) as (H1 & H2 & H3)
    end.
    split; [apply H1|]. split; [apply H2|apply H3].
  - intros. do 2 eexists. split; [reflexivity|]. simpl. auto 10.
Qed.

End SourcingMore.

Section Aliasing.
Import MessageHandlingObject.

(** [_init_logger] on the generating path, when everything goes well. *)
Lemma init_logger_generates (p : string) (nm lv fmt : option string)
    (z : Z) (w : world) :
  wf_world w -> openable w p = true ->
  (forall w1, LoggerGenerator._parse_logger_level lv w1 = Returned z w1) ->
  valid_format w (format_in_use fmt) = true ->
  exists l w',
    _init_logger (Some p) nm lv fmt None w = Returned (Some l) w' /\
    l = logger_for (name_in_use nm) w /\
    loggerDict w' !! name_in_use nm = Some l /\
    logger_level w' l = Some z /\
    handler_level w' (length (file_handlers w)) = Some z /\
    logger_handlers w' l
    = (logger_handlers w l ++ [length (file_handlers w)])%list /\
    wf_world w' /\ openable w' = openable w /\
    valid_format w' = valid_format w /\ held w' = held w /\
    next_lock w' = next_lock w /\ trace w' = trace w.
Proof.
  intros Hwf Ho Hp Hv.
  destruct (init_runs p nm w Hwf Ho)
    as (g & w1 & Hinit & Hh & Hdf & Hnew & Hold & Hlg & Hsame & Hfresh &
        Hreg & Hwf1 & Ho1 & Hv1 & Htr1).
  pose proof (init_opened p nm w Ho) as Hexp. rewrite Hinit in Hexp.
  injection Hexp as Hg Hw1.
  assert (Hv' : valid_format w1 (chosen_format g fmt) = true).
  { rewrite Hv1. unfold chosen_format. rewrite Hdf. exact Hv. }
  destruct (generate_runs g lv fmt z w1 (Hp w1) Hv' Hlg)
    as (w2 & Hgen & Hhs & Hll & Hlh & Hd & Htr & Hother & Hpaths).
  assert (Hlt : (LoggerGenerator._handler g
                 < length (file_handlers w1))%nat).
  { apply lookup_lt_is_Some_1. rewrite Hnew. eauto. }
  destruct (generate_wf g lv fmt _ w1 w2 Hwf1 Hlt Hgen)
    as (Hwf2 & Ho2 & Hv2).
  assert (Hfh : is_Some (file_handlers w1 !! LoggerGenerator._handler g))
    by (rewrite Hnew; eauto).
  destruct (generate_levels g lv fmt z w1 (Hp w1) Hlg Hfh) as [Hl1 Hl2].
  rewrite Hgen in Hl1, Hl2. simpl in Hl1, Hl2.
  pose proof (generate_world g lv fmt z w1 (Hp w1) Hv') as Hexp2.
  rewrite Hgen in Hexp2. injection Hexp2 as Hw2.
  exists (LoggerGenerator._logger g), w2.
  split.
  { unfold _init_logger. run. rewrite Hinit, Hgen. reflexivity. }
  split; [rewrite Hg; reflexivity|].
  split; [rewrite Hd; assumption|].
  split; [assumption|].
  split; [rewrite <- Hh; assumption|].
  split.
  { rewrite Hhs, Hsame, <- Hh.
    rewrite bool_decide_eq_false_2 by assumption. reflexivity. }
  split; [assumption|]. split; [congruence|]. split; [congruence|].
  destruct (with_logger_frame (name_in_use nm) w)
    as (_ & _ & _ & Hheld & Hnl & Htr0).
  rewrite Hw2, Hw1. simpl. auto.
Qed.

(** The constructor on the generating path, when everything goes well. *)
Lemma object_init_generates (verbose suppress_warnings : bool) (p : string)
    (nm lv fmt : option string) (z : Z) (w : world) :
  wf_world w -> openable w p = true ->
  (forall w1, LoggerGenerator._parse_logger_level lv w1 = Returned z w1) ->
  valid_format w (format_in_use fmt) = true ->
  exists l w',
    __init__ verbose suppress_warnings (Some p) nm lv fmt None w
    = Returned {| _verbose := verbose;
                  _suppress_warnings := suppress_warnings;
                  _logger := Some l; _use_threaded_log_locks := false;
                  _log_lock := next_lock w |} w' /\
    l = logger_for (name_in_use nm) w /\
    loggerDict w' !! name_in_use nm = Some l /\
    logger_level w' l = Some z /\
    handler_level w' (length (file_handlers w)) = Some z /\
    logger_handlers w' l
    = (logger_handlers w l ++ [length (file_handlers w)])%list /\
    wf_world w' /\ openable w' = openable w /\
    valid_format w' = valid_format w /\ held w' = held w /\
    next_lock w' = S (next_lock w) /\ trace w' = trace w.
Proof.
  intros Hwf Ho Hp Hv.
  destruct (init_logger_generates p nm lv fmt z w Hwf Ho Hp Hv)
    as (l & w1 & Hi & Hl & Hreg & Hlev & Hhl & Hh & Hwf1 & Hop & Hvf &
        Hheld & Hnl & Htr).
  exists l, (set_next_lock (S (next_lock w1)) w1).
  split.
  { unfold __init__, Lock. run. rewrite Hi, Hnl. reflexivity. }
  unfold logger_level, handler_level, logger_handlers, wf_world in *.
  simpl. rewrite Hnl. auto 15.
Qed.

(** X12: a second object constructed with a log file and the logger name
    of the first gets the first object's logger, not one of its own: its
    level argument replaces the threshold the first object asked for, and
    the logger ends up with the handlers of both. *)
Theorem same_name_overrides_threshold (v1 s1 v2 s2 : bool)
    (p1 p2 : string) (nm lv1 lv2 fmt1 fmt2 : option string) (z1 z2 : Z)
    (w : world) :
  wf_world w -> openable w p1 = true -> openable w p2 = true ->
  (forall w', LoggerGenerator._parse_logger_level lv1 w'
              = Returned z1 w') ->
  (forall w', LoggerGenerator._parse_logger_level lv2 w'
              = Returned z2 w') ->
  valid_format w (format_in_use fmt1) = true ->
  valid_format w (format_in_use fmt2) = true ->
  exists o1 w1 o2 w2 l h1 h2,
    __init__ v1 s1 (Some p1) nm lv1 fmt1 None w = Returned o1 w1 /\
    _logger o1 = Some l /\ logger_level w1 l = Some z1 /\
    __init__ v2 s2 (Some p2) nm lv2 fmt2 None w1 = Returned o2 w2 /\
    _logger o2 = Some l /\ logger_level w2 l = Some z2 /\
    h1 <> h2 /\
    logger_handlers w2 l = (logger_handlers w l ++ [h1; h2])%list.
Proof.
  intros Hwf Ho1 Ho2 Hp1 Hp2 Hv1 Hv2.
  destruct (object_init_generates v1 s1 p1 nm lv1 fmt1 z1 w Hwf Ho1 Hp1 Hv1)
    as (l & w1 & Hi1 & Hl & Hreg1 & Hlev1 & _ & Hh1 & Hwf1 & Hop1 & Hvf1 &
        _).
  assert (Ho2' : openable w1 p2 = true) by (rewrite Hop1; assumption).
  assert (Hv2' : valid_format w1 (format_in_use fmt2) = true)
    by (rewrite Hvf1; assumption).
  destruct (object_init_generates v2 s2 p2 nm lv2 fmt2 z2 w1 Hwf1 Ho2' Hp2
              Hv2')
    as (l2 & w2 & Hi2 & Hl2 & Hreg2 & Hlev2 & _ & Hh2 & _).
  assert (l2 = l) as ->.
  { rewrite Hl2. unfold logger_for. rewrite Hreg1. reflexivity. }
  eexists _, w1, _, w2, l, (length (file_handlers w)),
    (length (file_handlers w1)).
  split; [exact Hi1|]. split; [reflexivity|]. split; [assumption|].
  split; [exact Hi2|]. split; [reflexivity|]. split; [assumption|].
  assert (Hlen : (length (file_handlers w) < length (file_handlers w1))%nat).
  { destruct Hwf1 as [_ Hhs].
    assert (Hin : length (file_handlers w) ∈ logger_handlers w1 l).
    { rewrite Hh1. apply elem_of_app. right.
      apply list_elem_of_singleton. reflexivity. }
    unfold logger_handlers in Hin.
    destruct (loggers w1 !! l) as [lg|] eqn:Hlg; simpl in Hin.
    - eapply Hhs; eassumption.
    - apply not_elem_of_nil in Hin. contradiction. }
  split; [lia|].
  rewrite Hh2, Hh1, <- app_assoc. reflexivity.
Qed.

Lemma same_name_overrides_threshold_witness :
  (wf_world w0 /\ openable w0 "a.log" = true /\
   openable w0 "b.log" = true /\
   valid_format w0 (format_in_use None) = true) /\
  exists o1 w1 o2 w2 l,
    __init__ false false (Some "a.log") None (Some "debug") None None w0
    = Returned o1 w1 /\
    _logger o1 = Some l /\ logger_level w1 l = Some logging.DEBUG /\
    __init__ false false (Some "b.log") None (Some "error") None None w1
    = Returned o2 w2 /\
    _logger o2 = Some l /\ logger_level w2 l = Some logging.ERROR.
Proof.
  split; [split; [exact wf_w0|repeat split]|].
  destruct (same_name_overrides_threshold false false false false "a.log"
              "b.log" None (Some "debug") (Some "error") None None
              logging.DEBUG logging.ERROR w0 wf_w0 eq_refl eq_refl
              (fun _ => eq_refl) (fun _ => eq_refl) eq_refl eq_refl)
    as (o1 & w1 & o2 & w2 & l & h1 & h2 & H1 & H2 & H3 & H4 & H5 & H6 & _).
  exists o1, w1, o2, w2, l. auto 10.
Defined.

End Aliasing.

Section Locks.
Import MessageHandlingObject.

(** However [_init_logger] ends, it takes no lock, creates no lock and
    produces no output. *)
Lemma init_logger_frame (fp nm lv fmt : option string) (sh : option loc)
    (w : world) :
  held (final (_init_logger fp nm lv fmt sh w)) = held w /\
  next_lock (final (_init_logger fp nm lv fmt sh w)) = next_lock w /\
  trace (final (_init_logger fp nm lv fmt sh w)) = trace w.
Proof.
  unfold _init_logger.
  destruct (is_not_None sh && any [fp; nm; lv; fmt]); [simpl; auto|].
  destruct sh as [l|]; [simpl; auto|].
  destruct fp as [p|]; [|simpl; auto].
  destruct (with_logger_frame (name_in_use nm) w)
    as (_ & _ & _ & Hh & Hn & Ht).
  run. destruct (openable w p) eqn:Ho.
  - rewrite (init_opened p nm w Ho).
    unfold LoggerGenerator.generate, LoggerGenerator._set_logger_level,
      LoggerGenerator._apply_formatting, Formatter.
    run.
    match goal with
    | |- context [LoggerGenerator._parse_logger_level lv ?w1] =>
        destruct (LoggerGenerator._parse_logger_level lv w1)
          as [z wp|e wp|wp] eqn:Hp
    end.
    + apply parse_level_pure in Hp as [-> _]. simpl.
      match goal with
      | |- context [if ?b then _ else _] => destruct b
      end; simpl; auto.
    + assert (wp = set_file_handlers
                     (file_handlers w ++ [fresh_handler p])
                     (with_logger (name_in_use nm) w)) as ->.
      { revert Hp. unfold LoggerGenerator._parse_logger_level. run.
        repeat match goal with
               | |- context [if ?b then _ else _] => destruct b
               end; intros H; inversion H; reflexivity. }
      simpl. auto.
    + exfalso. revert Hp. unfold LoggerGenerator._parse_logger_level. run.
      repeat match goal with
             | |- context [if ?b then _ else _] => destruct b
             end; discriminate.
  - rewrite (init_unopenable p nm w Ho). simpl. auto.
Qed.

(** X13: the constructor takes no lock and produces no output, and every
    object it returns has a lock of its own: two objects constructed one
    after the other, sharing a logger or not, have different locks. *)
Theorem constructed_objects_have_own_locks
    (v1 s1 v2 s2 : bool) (fp1 nm1 lv1 fmt1 fp2 nm2 lv2 fmt2 : option string)
    (sh1 sh2 : option loc) (o1 o2 : t) (w w1 w2 : world) :
  __init__ v1 s1 fp1 nm1 lv1 fmt1 sh1 w = Returned o1 w1 ->
  __init__ v2 s2 fp2 nm2 lv2 fmt2 sh2 w1 = Returned o2 w2 ->
  _log_lock o1 <> _log_lock o2 /\
  _log_lock o1 = next_lock w /\ _log_lock o2 = next_lock w1 /\
  held w2 = held w /\ trace w2 = trace w.
Proof.
  assert (Hone : forall v s fp nm lv fmt sh o wa wb,
             __init__ v s fp nm lv fmt sh wa = Returned o wb ->
             _log_lock o = next_lock wa /\ next_lock wb = S (next_lock wa) /\
             held wb = held wa /\ trace wb = trace wa).
  { intros v s fp nm lv fmt sh o wa wb H.
    destruct (init_logger_frame fp nm lv fmt sh wa) as (Hh & Hn & Ht).
    revert H. unfold __init__, Lock. run.
    destruct (_init_logger fp nm lv fmt sh wa); try discriminate.
    simpl in *. intros H. injection H as <- <-. simpl. auto. }
  intros H1 H2.
  apply Hone in H1 as (Ha1 & Ha2 & Ha3 & Ha4).
  apply Hone in H2 as (Hb1 & Hb2 & Hb3 & Hb4).
  split; [lia|]. split; [assumption|]. split; [assumption|].
  split; congruence.
Qed.

Lemma constructed_objects_have_own_locks_witness :
  exists o1 o2 w2,
    (__init__ false false (Some "test.log") (Some "testing") None None None
       w0 = Returned o1 w_first /\
     __init__ true false None None None None (_logger o1) w_first
     = Returned o2 w2) /\
    _logger o1 = _logger o2 /\ _log_lock o1 <> _log_lock o2.
Proof.
  do 3 eexists.
  assert (H1 : __init__ false false (Some "test.log") (Some "testing") None
                 None None w0
               = Returned (object_with false false (Some 0%nat) false)
                   w_first) by reflexivity.
  assert (H2 : __init__ true false None None None None (Some 0%nat) w_first
               = Returned
                   {| _verbose := true; _suppress_warnings := false;
                      _logger := Some 0%nat;
                      _use_threaded_log_locks := false;
                      _log_lock := 1%nat |}
                   (set_next_lock 2 w_first)) by reflexivity.
  split; [split; [exact H1|exact H2]|]. split; [reflexivity|].
  exact (proj1 (constructed_objects_have_own_locks _ _ _ _ _ _ _ _ _ _ _ _
                  _ _ _ _ _ _ _ H1 H2)).
Defined.

End Locks.

Section GenerateFrame.
Import LoggerGenerator.

(** X14: however [generate] ends, it touches only the generator's own
    logger and handler: every other Logger and FileHandler object is as
    before, no object is created, the registry, the locks and the trace
    are as before, and the own logger keeps its name and the own handler
    its file. *)
Theorem generate_touches_own_objects_only (self : t)
    (lv fmt : option string) (w : world) :
  (forall l, l <> _logger self ->
     loggers (final (generate self lv fmt w)) !! l = loggers w !! l) /\
  (forall h, h <> _handler self ->
     file_handlers (final (generate self lv fmt w)) !! h
     = file_handlers w !! h) /\
  logging.name <$> loggers (final (generate self lv fmt w)) !! _logger self
  = logging.name <$> loggers w !! _logger self /\
  logging.baseFilename <$>
    file_handlers (final (generate self lv fmt w)) !! _handler self
  = logging.baseFilename <$> file_handlers w !! _handler self /\
  length (loggers (final (generate self lv fmt w))) = length (loggers w) /\
  length (file_handlers (final (generate self lv fmt w)))
  = length (file_handlers w) /\
  loggerDict (final (generate self lv fmt w)) = loggerDict w /\
  held (final (generate self lv fmt w)) = held w /\
  next_lock (final (generate self lv fmt w)) = next_lock w /\
  trace (final (generate self lv fmt w)) = trace w.
Proof.
  unfold generate, _set_logger_level, _apply_formatting, Formatter,
    Logger_setLevel, Handler_setLevel, Handler_setFormatter,
    Logger_addHandler.
  run.
  destruct (_parse_logger_level lv w) as [z wp|e wp|wp] eqn:Hp.
  - apply parse_level_pure in Hp as [-> _]. simpl.
    destruct (valid_format w _); simpl;
      rewrite ?length_alter, ?list_lookup_alter_eq;
      (repeat split; auto;
       try (intros; rewrite ?list_lookup_alter_ne by auto; reflexivity));
      try (destruct (loggers w !! _logger self); reflexivity);
      destruct (file_handlers w !! _handler self); reflexivity.
  - assert (wp = w) as ->.
    { revert Hp. unfold _parse_logger_level. run.
      repeat match goal with
             | |- context [if ?b then _ else _] => destruct b
             end; intros H; inversion H; reflexivity. }
    simpl. auto 10.
  - exfalso. revert Hp. unfold _parse_logger_level. run.
    repeat match goal with
           | |- context [if ?b then _ else _] => destruct b
           end; discriminate.
Qed.

End GenerateFrame.

(** ** Resolution of the logger at construction and in [set_logger] *)

Section Resolution.
Import MessageHandlingObject.

(** The handler the generating path leaves in the store. *)
Lemma init_logger_generates_handler (p : string)
    (nm lv fmt : option string) (z : Z) (l : loc) (w w' : world) :
  openable w p = true ->
  (forall w1, LoggerGenerator._parse_logger_level lv w1 = Returned z w1) ->
  valid_format w (format_in_use fmt) = true ->
  _init_logger (Some p) nm lv fmt None w = Returned (Some l) w' ->
  file_handlers w' !! length (file_handlers w)
  = Some {| logging.baseFilename := p; logging.h_level := z;
            logging.formatter := Some (format_in_use fmt) |}.
Proof.
  intros Ho Hp Hv. unfold _init_logger. run.
  rewrite (init_opened p nm w Ho).
  destruct (with_logger_frame (name_in_use nm) w) as (Hf & _ & Hvf & _).
  match goal with
  | |- context [LoggerGenerator.generate ?g lv fmt ?w1] =>
      assert (Hv' : valid_format w1
                      (chosen_format g fmt) = true)
        by (simpl; rewrite Hvf; exact Hv);
      rewrite (generate_world g lv fmt z w1 (Hp w1) Hv')
  end.
  intros H. injection H as _ <-. simpl.
  rewrite !list_lookup_alter_eq.
  rewrite list_lookup_middle by reflexivity. reflexivity.
Qed.

(** C7: the constructor and [set_logger] resolve the logger alike, in this
    order.  Given a shared logger (and nothing that conflicts with it),
    both install that very reference and leave the logger store alone.
    Given no shared logger but a log file path, both run
    [LoggerGenerator(log_filepath, logger_name)] and then
    [generate(logger_level, logger_format)] and install the logger it
    returns; when the file opens, the level parses and the format is
    accepted, that logger is the registry's logger for the name in use,
    with a new handler for the path, carrying the level and the format,
    attached last.  Given neither, both install no logger.  An object
    constructed with a shared logger and one given it by [set_logger]
    hold the same reference, no logger or handler object is added for
    them, and whatever their switches their logging calls go to that one
    logger. *)
Theorem logger_resolution :
  (forall fp nm lv fmt l w,
     any [fp; nm; lv; fmt] = false ->
     (forall verbose suppress_warnings,
        __init__ verbose suppress_warnings fp nm lv fmt (Some l) w
        = Returned (constructed verbose suppress_warnings (Some l)
                      (next_lock w))
            (set_next_lock (S (next_lock w)) w)) /\
     (forall self,
        set_logger self fp nm lv fmt (Some l) w
        = Returned (rebind_logger self (Some l)) w)) /\
  (forall p nm lv fmt w,
     (forall verbose suppress_warnings,
        __init__ verbose suppress_warnings (Some p) nm lv fmt None w
        = (g ← LoggerGenerator.__init__ p nm;
           lg ← LoggerGenerator.generate g lv fmt;
           lk ← Lock;
           mret (constructed verbose suppress_warnings (Some lg) lk)) w) /\
     (forall self,
        set_logger self (Some p) nm lv fmt None w
        = (g ← LoggerGenerator.__init__ p nm;
           lg ← LoggerGenerator.generate g lv fmt;
           mret (rebind_logger self (Some lg))) w) /\
     (forall z,
        wf_world w -> openable w p = true ->
        (forall w1, LoggerGenerator._parse_logger_level lv w1
                    = Returned z w1) ->
        valid_format w (format_in_use fmt) = true ->
        exists l w',
          (forall verbose suppress_warnings,
             __init__ verbose suppress_warnings (Some p) nm lv fmt None w
             = Returned (constructed verbose suppress_warnings (Some l)
                           (next_lock w))
                 (set_next_lock (S (next_lock w)) w')) /\
          (forall self,
             set_logger self (Some p) nm lv fmt None w
             = Returned (rebind_logger self (Some l)) w') /\
          loggerDict w' !! name_in_use nm = Some l /\
          logger_handlers w' l
          = (logger_handlers w l ++ [length (file_handlers w)])%list /\
          file_handlers w' !! length (file_handlers w)
          = Some {| logging.baseFilename := p; logging.h_level := z;
                    logging.formatter := Some (format_in_use fmt) |} /\
          logger_level w' l = Some z)) /\
  (forall nm lv fmt w,
     (forall verbose suppress_warnings,
        __init__ verbose suppress_warnings None nm lv fmt None w
        = Returned (constructed verbose suppress_warnings None
                      (next_lock w))
            (set_next_lock (S (next_lock w)) w)) /\
     (forall self,
        set_logger self None nm lv fmt None w
        = Returned (rebind_logger self None) w)) /\
  (forall v1 s1 v2 s2 l w, exists o1 o2 w',
     (o1 ← __init__ v1 s1 None None None None (Some l);
      o0 ← __init__ v2 s2 None None None None None;
      o2 ← set_logger o0 None None None None (Some l);
      mret (o1, o2)) w = Returned (o1, o2) w' /\
     _verbose o1 = v1 /\ _suppress_warnings o1 = s1 /\
     _verbose o2 = v2 /\ _suppress_warnings o2 = s2 /\
     _logger o1 = Some l /\ _logger o2 = Some l /\
     loggerDict w' = loggerDict w /\ loggers w' = loggers w /\
     file_handlers w' = file_handlers w /\
     forall s e w1, exists w2 evs,
       (_print o1 s [];; _warn o2 s;; _print o2 s [];; _warn o1 s;;
        _raise o1 e) w1 = Raised e w2 /\
       trace w2 = (trace w1 ++ evs)%list /\
       log_targets evs = [l; l; l; l; l]).
Proof.
  split; [|split; [|split]].
  - intros fp nm lv fmt l w Hany. split; intros;
      unfold __init__, set_logger, Lock; run;
      rewrite init_logger_shared by assumption; reflexivity.
  - intros p nm lv fmt w. split; [|split].
    + intros. unfold __init__, _init_logger, Lock. run.
      destruct (LoggerGenerator.__init__ p nm w) as [g w1|e w1|w1];
        [|reflexivity..].
      destruct (LoggerGenerator.generate g lv fmt w1); reflexivity.
    + intros. unfold set_logger, _init_logger. run.
      destruct (LoggerGenerator.__init__ p nm w) as [g w1|e w1|w1];
        [|reflexivity..].
      destruct (LoggerGenerator.generate g lv fmt w1); reflexivity.
    + intros z Hwf Ho Hp Hv.
      destruct (init_logger_generates p nm lv fmt z w Hwf Ho Hp Hv)
        as (l & w' & Hi & _ & Hreg & Hlev & _ & Hh & _ & _ & _ & _ & Hnl &
            _).
      exists l, w'. split; [|split].
      * intros. unfold __init__, Lock. run. rewrite Hi, Hnl. reflexivity.
      * intros. unfold set_logger. run. rewrite Hi. reflexivity.
      * split; [assumption|]. split; [assumption|].
        split; [|assumption].
        eapply init_logger_generates_handler; eassumption.
  - intros nm lv fmt w. split; intros; reflexivity.
  - intros v1 s1 v2 s2 l w. do 3 eexists.
    split; [reflexivity|]. simpl. repeat (split; [reflexivity|]).
    intros s e w1.
    destruct v1, v2, s1, s2; do 2 eexists;
      (split; [reflexivity|]);
      (split; [simpl; rewrite <- !app_assoc; reflexivity|reflexivity]).
Qed.

Lemma logger_resolution_witness :
  (wf_world w0 /\ openable w0 "test.log" = true /\
   valid_format w0 (format_in_use None) = true) /\
  exists l w',
    __init__ false false (Some "test.log") (Some "testing") None None None
      w0
    = Returned (constructed false false (Some l) 0%nat)
        (set_next_lock 1 w') /\
    set_logger (object_with true false None false) (Some "test.log")
      (Some "testing") None None None w0
    = Returned (rebind_logger (object_with true false None false) (Some l))
        w' /\
    loggerDict w' !! "testing" = Some l /\
    logger_handlers w' l = [0%nat] /\
    logger_level w' l = Some logging.INFO.
Proof.
  split; [split; [exact wf_w0|split; reflexivity]|].
  destruct (proj2 (proj2 (proj1 (proj2 logger_resolution) "test.log"
                            (Some "testing") None None w0))
              logging.INFO wf_w0 eq_refl (fun _ => eq_refl) eq_refl)
    as (l & w' & H1 & H2 & H3 & H4 & _ & H5).
  exists l, w'. split; [apply H1|]. split; [apply H2|].
  split; [exact H3|]. split; [exact H4|exact H5].
Defined.

End Resolution.
